(** * Customer analytics pipelines: RFM features, synthetic churn data,
    churn classifier inference

  A shallow embedding of the three batch pipelines of the repository:

  - the RFM feature builder of [CSI_week5_assignment.ipynb]
    (pandas [dropna], boolean masks, [groupby], [agg], [merge]);
  - [generate_data] of [model-training.py] (numpy's global random
    state threaded explicitly);
  - the inference path of [app.py] through the fitted scikit-learn
    pipeline (column transformer, one-hot encoder, random forest).

  Tables are lists of records, a missing cell ([NaN], [NaT]) is [None],
  timestamps are integers (nanoseconds since the epoch, the resolution
  of [datetime64[ns]]) and floating-point cells are exact rationals. *)

From Stdlib Require Import ZArith QArith Qround Qabs Qminmax List Bool Lia Lqa.
From Stdlib Require Import Permutation.
From Stdlib Require Import Ascii String.
From Stdlib Require DecimalString.
Import ListNotations.

Local Open Scope Z_scope.

(* ================================================================== *)
(** * Part I: definitions *)
(* ================================================================== *)

(** ** The fragment of pandas the notebook uses *)

Module Pandas.

(** A cell of the [Invoice] column.  The spreadsheet holds plain
    integers for ordinary invoices and text for the others, so the
    column has dtype [object]. *)
Inductive invoice_id : Type :=
| InvInt (n : Z)
| InvStr (s : string).

Definition invoice_eq_dec (a b : invoice_id) : {a = b} + {a <> b}.
Proof.
  decide equality; [apply Z.eq_dec | apply string_dec].
Defined.

(** [str(n)] for a Python integer. *)
Definition py_str_int (n : Z) : string :=
  DecimalString.NilZero.string_of_int (Z.to_int n).

(** [Series.astype(str)] on one cell. *)
Definition astype_str (i : invoice_id) : string :=
  match i with
  | InvInt n => py_str_int n
  | InvStr s => s
  end.

(** [Series.str.startswith(c)] for a one-character pattern. *)
Definition startswith (c : ascii) (s : string) : bool :=
  match s with
  | EmptyString => false
  | String a _ => Ascii.eqb a c
  end.

(** [Series.max()] and [Series.min()] of a datetime column; the result
    on an empty column is [NaT]. *)
Definition series_max (xs : list Z) : option Z :=
  match xs with
  | [] => None
  | x :: rest => Some (fold_left Z.max rest x)
  end.

Definition series_min (xs : list Z) : option Z :=
  match xs with
  | [] => None
  | x :: rest => Some (fold_left Z.min rest x)
  end.

(** Nanoseconds in one day. *)
Definition NS_PER_DAY : Z := 86400000000000.

(** [Timestamp - Timestamp]; [NaT] propagates. *)
Definition timestamp_sub (a b : option Z) : option Z :=
  match a, b with
  | Some x, Some y => Some (x - y)
  | _, _ => None
  end.

(** [Timedelta.days]: whole days, rounded towards minus infinity. *)
Definition days (d : option Z) : option Z :=
  match d with
  | Some ns => Some (ns / NS_PER_DAY)
  | None => None
  end.

(** First occurrences, in order of appearance (the hash-table pass
    behind [unique] and [nunique]). *)
Fixpoint unique_from {A} (eq_dec : forall a b : A, {a = b} + {a <> b})
         (seen : list A) (xs : list A) : list A :=
  match xs with
  | [] => []
  | x :: rest =>
      if in_dec eq_dec x seen then unique_from eq_dec seen rest
      else x :: unique_from eq_dec (x :: seen) rest
  end.

Definition unique {A} (eq_dec : forall a b : A, {a = b} + {a <> b})
           (xs : list A) : list A :=
  unique_from eq_dec [] xs.

(** [Series.nunique()]. *)
Definition nunique {A} (eq_dec : forall a b : A, {a = b} + {a <> b})
           (xs : list A) : nat :=
  List.length (unique eq_dec xs).

(** Insertion sort, used for the sorted group keys of [groupby] and
    the sorted categories of the one-hot encoder. *)
Fixpoint insert_sorted {A} (leb : A -> A -> bool) (x : A) (l : list A)
  : list A :=
  match l with
  | [] => [x]
  | y :: rest =>
      if leb x y then x :: y :: rest
      else y :: insert_sorted leb x rest
  end.

Fixpoint sort {A} (leb : A -> A -> bool) (l : list A) : list A :=
  match l with
  | [] => []
  | x :: rest => insert_sorted leb x (sort leb rest)
  end.

End Pandas.

(** ** The RFM feature builder (notebook cell 1) *)

Module RFM.
Import Pandas.

(** One row of the transactional spreadsheet.  [CustomerID] is [None]
    where the cell is empty. *)
Record Transaction : Type := mkTransaction {
  Invoice : invoice_id;
  CustomerID : option Z;
  Quantity : Z;
  Price : Q;
  InvoiceDate : Z
}.

(** A row once the [TotalPrice] column has been added. *)
Record Row : Type := mkRow {
  txn : Transaction;
  TotalPrice : Q
}.

(** One row of the [rfm] frame after the merge and the tenure
    column. *)
Record Customer : Type := mkCustomer {
  customer_id : Z;
  Recency : option Z;
  Frequency : nat;
  Monetary : Q;
  FirstPurchaseDate : option Z;
  Tenure : option Z
}.

(** [data.dropna(subset=['Customer ID'], inplace=True)] *)
Definition dropna_customer (data : list Transaction) : list Transaction :=
  filter (fun t => match CustomerID t with Some _ => true | None => false end)
         data.

(** [data[~data['Invoice'].astype(str).str.startswith('C')]] *)
Definition drop_cancelled (data : list Transaction) : list Transaction :=
  filter (fun t => negb (startswith "C"%char (astype_str (Invoice t)))) data.

(** [data['TotalPrice'] = data['Quantity'] * data['Price']].  The
    product is exact here, where pandas rounds it to a double; the
    properties below do not depend on its value. *)
Definition add_total_price (data : list Transaction) : list Row :=
  map (fun t => mkRow t (inject_Z (Quantity t) * Price t)%Q) data.

Definition preprocess (data : list Transaction) : list Row :=
  add_total_price (drop_cancelled (dropna_customer data)).

(** [latest_date = data['InvoiceDate'].max()] *)
Definition latest_date (data : list Row) : option Z :=
  series_max (map (fun r => InvoiceDate (txn r)) data).

Definition has_customer (c : Z) (r : Row) : bool :=
  match CustomerID (txn r) with
  | Some c' => Z.eqb c' c
  | None => false
  end.

Definition customer_keys (data : list Row) : list Z :=
  flat_map (fun r => match CustomerID (txn r) with
                     | Some c => [c]
                     | None => []
                     end) data.

(** [data.groupby('Customer ID')]: one group per distinct key, keys in
    increasing order, rows of a group in their original order; rows
    with a missing key belong to no group. *)
Definition groupby (data : list Row) : list (Z * list Row) :=
  map (fun c => (c, filter (has_customer c) data))
      (sort Z.leb (unique Z.eq_dec (customer_keys data))).

(** The column sum, exact here where pandas adds doubles; the
    properties below do not depend on its value. *)
Definition sum_Q (xs : list Q) : Q := fold_left Qplus xs 0%Q.

(** The intermediate [rfm] frame: columns
    [Customer ID, Recency, Frequency, Monetary]. *)
Definition rfm_agg (latest : option Z) (groups : list (Z * list Row))
  : list (Z * (option Z * nat * Q)) :=
  map (fun g =>
         let x := snd g in
         (fst g,
          (days (timestamp_sub latest
                   (series_max (map (fun r => InvoiceDate (txn r)) x))),
           nunique invoice_eq_dec (map (fun r => Invoice (txn r)) x),
           sum_Q (map TotalPrice x))))
      groups.

(** [customer_first_purchase]: columns
    [Customer ID, FirstPurchaseDate]. *)
Definition customer_first_purchase (groups : list (Z * list Row))
  : list (Z * option Z) :=
  map (fun g =>
         (fst g, series_min (map (fun r => InvoiceDate (txn r)) (snd g))))
      groups.

(** [left.merge(right, on='Customer ID')]: inner join, one output row
    per matching pair, in the order of the left frame. *)
Definition merge {A B} (left : list (Z * A)) (right : list (Z * B))
  : list (Z * (A * B)) :=
  flat_map (fun l =>
              map (fun r => (fst l, (snd l, snd r)))
                  (filter (fun r => Z.eqb (fst r) (fst l)) right))
           left.

(** [rfm['Tenure'] = (latest_date - rfm['FirstPurchaseDate']).dt.days] *)
Definition add_tenure (latest : option Z)
           (m : Z * ((option Z * nat * Q) * option Z)) : Customer :=
  let '(c, ((rec, freq, mon), first)) := m in
  mkCustomer c rec freq mon first (days (timestamp_sub latest first)).

Definition rfm_of_rows (data : list Row) : list Customer :=
  let latest := latest_date data in
  let groups := groupby data in
  let rfm := rfm_agg latest groups in
  let first := customer_first_purchase groups in
  map (add_tenure latest) (merge rfm first).

(** The whole feature builder, from the raw spreadsheet rows.  On a
    spreadsheet without rows the notebook stops with an error at the
    tenure column instead of building a frame; that path is not
    modelled, the result is the empty list there, and the properties
    below are about the customers of a result. *)
Definition rfm_features (data : list Transaction) : list Customer :=
  rfm_of_rows (preprocess data).

(** *** Reference notions used to state the properties *)

(** A row survives preprocessing. *)
Definition kept (t : Transaction) : bool :=
  match CustomerID t with
  | Some _ => negb (startswith "C"%char (astype_str (Invoice t)))
  | None => false
  end.

(** The kept rows of one customer. *)
Definition rows_of (data : list Transaction) (c : Z) : list Transaction :=
  filter (fun t => kept t && match CustomerID t with
                             | Some c' => Z.eqb c' c
                             | None => false
                             end) data.

(** Scenario data: two customers; customer 1 has five rows over three
    distinct invoices (invoice 1002 is split across two rows and
    invoice 1001 repeats later), customer 2 has one row. *)
Definition day (n : Z) : Z := n * NS_PER_DAY.

Definition scenario1 : list Transaction :=
  [ mkTransaction (InvInt 1001) (Some 1) 2 (5#2) (day 0);
    mkTransaction (InvInt 1002) (Some 1) 1 (10#1) (day 3);
    mkTransaction (InvInt 1002) (Some 1) 4 (1#1) (day 3);
    mkTransaction (InvInt 1003) (Some 1) 1 (7#1) (day 9);
    mkTransaction (InvInt 1001) (Some 1) 3 (5#2) (day 0);
    mkTransaction (InvInt 2001) (Some 2) 6 (3#1) (day 12);
    mkTransaction (InvStr "C1003") (Some 1) (-1) (7#1) (day 10);
    mkTransaction (InvInt 3001) None 1 (1#1) (day 20) ].

(** Two customers with one purchase each, ten days apart. *)
Definition single_purchases : list Transaction :=
  [ mkTransaction (InvInt 1) (Some 1) 1 (1#1) (day 0);
    mkTransaction (InvInt 2) (Some 2) 1 (1#1) (day 10) ].



End RFM.


(** ** The fragment of numpy the generator uses *)

Module Numpy.

Local Open Scope Q_scope.

(** The legacy global generator behind [np.random.*].  Its algorithm
  is numpy's, not the repository's, so it is an interface: a state
  type with the scalar draws every array draw is built from.
  [seed s] is the state [np.random.seed(s)] installs; it depends on
  [s] alone. *)
Class RandomState (G : Type) : Type := {
seed : Z -> G;
(** one double in the half-open unit interval *)
random_sample : G -> Q * G;
(** one integer between 0 and the bound, both included *)
random_interval : Z -> G -> Z * G;
(** one [binomial(n, p)] draw *)
binomial1 : Z -> Q -> G -> Z * G
}.

(** The contract of [random_sample]. *)
Definition unit_interval_sampler {G} `{RandomState G} : Prop :=
forall g : G, 0 <= fst (random_sample g) /\ fst (random_sample g) < 1.

(** Computations that read and advance the global generator. *)
Definition Rand (G A : Type) : Type := G -> A * G.

Definition ret {G A} (a : A) : Rand G A := fun g => (a, g).

Definition bind {G A B} (m : Rand G A) (k : A -> Rand G B) : Rand G B :=
fun g => let (a, g') := m g in k a g'.

Notation "x <- m ;; k" := (bind m (fun x => k))
(at level 61, m at next level, right associativity).
Notation "m ;;; k" := (bind m (fun _ => k))
(at level 61, right associativity).

(** [size] successive scalar draws, in order. *)
Fixpoint draws {G A} (size : nat) (m : Rand G A) : Rand G (list A) :=
match size with
| O => ret []
| S k => x <- m ;; xs <- draws k m ;; ret (x :: xs)
end.

(** One draw per element of [ps], in order. *)
Fixpoint draw_each {G A B} (f : A -> Rand G B) (ps : list A)
: Rand G (list B) :=
match ps with
| [] => ret []
| p :: rest => x <- f p ;; xs <- draw_each f rest ;; ret (x :: xs)
end.

Section Draws.
Context {G : Type} `{RandomState G}.

(** [np.random.seed(s)] *)
Definition np_random_seed (s : Z) : Rand G unit :=
  fun _ => (tt, seed s).

(** [np.random.randint(low, high, size=size)]: integers from [low]
    (included) to [high] (excluded). *)
Definition randint (low high : Z) (size : nat) : Rand G (list Z) :=
  draws size (fun g => let (r, g') := random_interval (high - low - 1) g in
                       ((low + r)%Z, g')).

(** [np.random.uniform(low, high)]: one scalar. *)
Definition uniform (low high : Q) : Rand G Q :=
  fun g => let (u, g') := random_sample g in
           (low + (high - low) * u, g').

(** [np.random.uniform(low, high, size=size)] *)
Definition uniform_array (low high : Q) (size : nat) : Rand G (list Q) :=
  draws size (uniform low high).

(** [np.random.choice(a, size=size)]: uniform indices into [a].
    The index is within [a] under the contract of
    [random_interval]; the default of [nth] is never read then. *)
Definition choice (a : list string) (size : nat) : Rand G (list string) :=
  idx <- randint 0 (Z.of_nat (List.length a)) size ;;
  ret (map (fun i => nth (Z.to_nat i) a EmptyString) idx).

(** [np.random.binomial(n, p)] with an array [p]. *)
Definition binomial (n : Z) (p : list Q) : Rand G (list Z) :=
  draw_each (binomial1 n) p.

End Draws.

(** [np.rint]: nearest integer, ties to the even one. *)
Definition rint (x : Q) : Z :=
let f := Qfloor x in
match Qcompare (x - inject_Z f)%Q (1 # 2)%Q with
| Lt => f
| Gt => (f + 1)%Z
| Eq => if Z.even f then f else (f + 1)%Z
end.

(** [np.round(x, 2)] on one cell.  The rounding is that of the exact
    rational; in double precision the result can differ from it by one
    cent at values that end in half a cent. *)
Definition round2 (x : Q) : Q := inject_Z (rint (x * 100)) / 100.

(** [np.round(a, 2)] *)
Definition np_round2 (a : list Q) : list Q := map round2 a.

(** [np.clip] on one cell: [minimum(maximum(x, lo), hi)]. *)
Definition clip1 (lo hi x : Q) : Q := Qmin (Qmax x lo) hi.

(** [np.clip(a, lo, hi)] *)
Definition np_clip (a : list Q) (lo hi : Q) : list Q := map (clip1 lo hi) a.

(** Element-wise arithmetic on arrays of one length, and with a
  scalar. *)
Fixpoint map2 {A B C} (f : A -> B -> C) (xs : list A) (ys : list B)
: list C :=
match xs, ys with
| x :: xs', y :: ys' => f x y :: map2 f xs' ys'
| _, _ => []
end.

Definition add (xs ys : list Q) : list Q := map2 Qplus xs ys.
Definition mul (xs ys : list Q) : list Q := map2 Qmult xs ys.
Definition scalar_add (k : Q) (xs : list Q) : list Q := map (Qplus k) xs.
Definition scalar_mul (k : Q) (xs : list Q) : list Q := map (Qmult k) xs.
Definition mul_scalar (xs : list Q) (k : Q) : list Q :=
map (fun x => x * k) xs.
Definition sub_scalar (xs : list Q) (k : Q) : list Q :=
map (fun x => x - k) xs.

(** [a == s] for an array of strings, as the 0/1 array it becomes
  under arithmetic. *)
Definition indicator (b : bool) : Q := if b then 1 else 0.
Definition eq_scalar (a : list string) (s : string) : list Q :=
map (fun x => indicator (String.eqb x s)) a.

(** A small linear congruential generator that implements the
  interface, to run the model on. *)
Definition lcg_next (g : Z) : Z := ((1103515245 * g + 12345) mod 2147483648)%Z.

Definition lcg_sample (g : Z) : Q * Z :=
let g' := lcg_next g in (g' # 2147483648, g').

Fixpoint lcg_binomial (n : nat) (p : Q) (g : Z) : Z * Z :=
match n with
| O => (0%Z, g)
| S k =>
    let (u, g1) := lcg_sample g in
    let (c, g2) := lcg_binomial k p g1 in
    ((if Qlt_le_dec u p then c + 1 else c)%Z, g2)
end.

Definition lcg : RandomState Z := {|
seed := fun s => (s mod 2147483648)%Z;
random_sample := lcg_sample;
random_interval := fun bound g =>
  let g' := lcg_next g in ((g' mod (bound + 1))%Z, g');
binomial1 := fun n p g => lcg_binomial (Z.to_nat n) p g
|}.

End Numpy.

(** ** The synthetic churn data generator ([model-training.py], part 1) *)

Module ChurnData.
Import Numpy.
Local Open Scope Q_scope.

(** The data frame built at the end of [generate_data], column by
  column. *)
Record DataFrame : Type := mkDataFrame {
tenure : list Z;
monthly_charges : list Q;
total_charges : list Q;
contract : list string;
internet_service : list string;
online_security : list string;
churn : list Z
}.

(** [pd.DataFrame({...})]: columns of different lengths are
  rejected. *)
Definition pd_DataFrame (tenure : list Z) (monthly total : list Q)
         (contract internet security : list string) (churn : list Z)
: option DataFrame :=
let n := List.length tenure in
if (Nat.eqb (List.length monthly) n && Nat.eqb (List.length total) n &&
    Nat.eqb (List.length contract) n && Nat.eqb (List.length internet) n &&
    Nat.eqb (List.length security) n && Nat.eqb (List.length churn) n)%bool
then Some (mkDataFrame tenure monthly total contract internet security churn)
else None.

(** The columns drawn before the label. *)
Record Features : Type := mkFeatures {
f_tenure : list Z;
f_monthly_charges : list Q;
f_jitter : Q;
f_total_charges : list Q;
f_contract : list string;
f_internet_service : list string;
f_online_security : list string
}.

(** The churn probability of one customer, as the source writes it. *)
Definition churn_prob1 (contract internet security : string) (monthly : Q)
: Q :=
(1 # 10)
+ (3 # 10) * indicator (String.eqb contract "Month-to-month")
+ (2 # 10) * indicator (String.eqb internet "Fiber optic")
+ (15 # 100) * indicator (String.eqb security "No")
+ (1 # 1000) * (monthly - 50).

Section Generator.
Context {G : Type} `{RandomState G}.

(** The feature draws of [generate_data], in source order. *)
Definition draw_features (num_samples : nat) : Rand G Features :=
  tenure <- randint 1 72 num_samples ;;
  raw <- uniform_array 20 100 num_samples ;;
  let monthly_charges := np_round2 raw in
  jitter <- uniform (8 # 10) (12 # 10) ;;
  let total_charges :=
    np_round2 (mul_scalar (mul (map inject_Z tenure) monthly_charges)
                          jitter) in
  contract <- choice ["Month-to-month"; "One year"; "Two year"]%string
                     num_samples ;;
  internet_service <- choice ["DSL"; "Fiber optic"; "No"]%string
                             num_samples ;;
  online_security <- choice ["Yes"; "No"; "No internet service"]%string
                            num_samples ;;
  ret (mkFeatures tenure monthly_charges jitter total_charges
                  contract internet_service online_security).

(** The array [churn_prob] of the source, by array arithmetic. *)
Definition churn_prob (f : Features) : list Q :=
  add (add (add (scalar_add (1 # 10)
                   (scalar_mul (3 # 10)
                      (eq_scalar (f_contract f) "Month-to-month")))
                (scalar_mul (2 # 10)
                   (eq_scalar (f_internet_service f) "Fiber optic")))
           (scalar_mul (15 # 100)
              (eq_scalar (f_online_security f) "No")))
      (scalar_mul (1 # 1000) (sub_scalar (f_monthly_charges f) 50)).

(** The array handed to [np.random.binomial]. *)
Definition bernoulli_p (f : Features) : list Q :=
  np_clip (churn_prob f) 0 (9 # 10).

Definition generate_data (num_samples : nat)
  : Rand G (option DataFrame) :=
  np_random_seed 42 ;;;
  f <- draw_features num_samples ;;
  churn <- binomial 1 (bernoulli_p f) ;;
  ret (pd_DataFrame (f_tenure f) (f_monthly_charges f)
                    (f_total_charges f) (f_contract f)
                    (f_internet_service f) (f_online_security f) churn).

End Generator.

End ChurnData.

(** ** The fragment of scikit-learn behind the fitted pipeline *)

Module Sklearn.
Import Pandas Numpy.
Local Open Scope Q_scope.

(** Python exceptions the modelled calls can raise. *)
Inductive exn : Type := ValueError | IndexError.

Inductive outcome (A : Type) : Type :=
| Returned (a : A)
| Raised (e : exn).
Arguments Returned {A} a.
Arguments Raised {A} e.

Definition and_then {A B} (m : outcome A) (k : A -> outcome B) : outcome B :=
  match m with
  | Returned a => k a
  | Raised e => Raised e
  end.

Notation "x <-- m ; k" := (and_then m (fun x => k))
  (at level 61, m at next level, right associativity).

(** The [handle_unknown] option of [OneHotEncoder]. *)
Inductive unknown_policy : Type := Error | Ignore.

(** An encoder after [fit]: its option and the categories learned for
    each column. *)
Record OneHotEncoder : Type := mkOneHotEncoder {
  handle_unknown : unknown_policy;
  categories_ : list (list string)
}.

(** [OneHotEncoder(handle_unknown=hu).fit(X)]: the categories of a
    column are its distinct values, sorted. *)
Definition OneHotEncoder_fit (hu : unknown_policy)
           (columns : list (list string)) : OneHotEncoder :=
  mkOneHotEncoder hu
    (map (fun col => sort String.leb (unique string_dec col)) columns).

Definition known (cats : list string) (v : string) : bool :=
  existsb (String.eqb v) cats.

(** The indicator block of one cell: one column per learned
    category.  A value outside the categories raises under [Error]
    and gives a block of zeros under [Ignore]. *)
Definition encode_cell (hu : unknown_policy) (cats : list string)
           (v : string) : outcome (list Q) :=
  if known cats v
  then Returned (map (fun c => indicator (String.eqb c v)) cats)
  else match hu with
       | Error => Raised ValueError
       | Ignore => Returned (map (fun _ => 0) cats)
       end.

(** The blocks of one row, side by side; a row with another number
    of columns than the encoder was fitted on is rejected. *)
Fixpoint encode_row (hu : unknown_policy) (cats : list (list string))
         (row : list string) : outcome (list Q) :=
  match cats, row with
  | [], [] => Returned []
  | c :: cats', v :: row' =>
      b <-- encode_cell hu c v ;
      rest <-- encode_row hu cats' row' ;
      Returned (b ++ rest)
  | _, _ => Raised ValueError
  end.

(** [encoder.transform(X)] on one row. *)
Definition OneHotEncoder_transform (enc : OneHotEncoder) (row : list string)
  : outcome (list Q) :=
  encode_row (handle_unknown enc) (categories_ enc) row.

(** A fitted decision tree: a leaf holds the class weights of the
    training samples that reached it. *)
Inductive tree : Type :=
| Leaf (value : list Q)
| Node (feature : nat) (threshold : Q) (l r : tree).

(** The leaf a sample falls into. *)
Fixpoint apply_tree (t : tree) (x : list Q) : list Q :=
  match t with
  | Leaf value => value
  | Node feature threshold l r =>
      if Qle_bool (nth feature x 0) threshold
      then apply_tree l x
      else apply_tree r x
  end.

Definition vsum (v : list Q) : Q := fold_right Qplus 0 v.

(** [DecisionTreeClassifier.predict_proba] on one sample: the leaf
    weights divided by their sum, a zero sum being replaced by 1. *)
Definition tree_predict_proba (t : tree) (x : list Q) : list Q :=
  let proba := apply_tree t x in
  let s := vsum proba in
  let normalizer := if Qeq_bool s 0 then 1 else s in
  map (fun p => p / normalizer) proba.

(** A forest after [fit]. *)
Record RandomForestClassifier : Type := mkRandomForestClassifier {
  classes_ : list Z;
  n_features_in_ : nat;
  estimators_ : list tree
}.

(** [RandomForestClassifier.predict_proba] on one sample: the mean
    of the trees' probability vectors; a sample of the wrong width is
    rejected. *)
Definition forest_predict_proba (rf : RandomForestClassifier) (x : list Q)
  : outcome (list Q) :=
  if Nat.eqb (List.length x) (n_features_in_ rf) then
    let all_proba :=
      fold_left (fun acc e => map2 Qplus acc (tree_predict_proba e x))
                (estimators_ rf)
                (repeat 0 (List.length (classes_ rf))) in
    let n := inject_Z (Z.of_nat (List.length (estimators_ rf))) in
    Returned (map (fun p => p / n) all_proba)
  else Raised ValueError.

(** [np.argmax]: the first position of the largest entry. *)
Fixpoint argmax_from (best_i : nat) (best : Q) (i : nat) (v : list Q) : nat :=
  match v with
  | [] => best_i
  | x :: rest =>
      if Qlt_le_dec best x then argmax_from i x (S i) rest
      else argmax_from best_i best (S i) rest
  end.

Definition argmax (v : list Q) : outcome nat :=
  match v with
  | [] => Raised ValueError
  | x :: rest => Returned (argmax_from 0 x 1 rest)
  end.

(** [classes_.take(i)] *)
Definition take (classes : list Z) (i : nat) : outcome Z :=
  match nth_error classes i with
  | Some c => Returned c
  | None => Raised IndexError
  end.

(** [RandomForestClassifier.predict] on one sample. *)
Definition forest_predict (rf : RandomForestClassifier) (x : list Q)
  : outcome Z :=
  proba <-- forest_predict_proba rf x ;
  i <-- argmax proba ;
  take (classes_ rf) i.

(** What [fit] leaves in every tree of a forest over [k] classes:
    each leaf holds [k] weights, none negative, not all zero. *)
Fixpoint fitted_tree (k : nat) (t : tree) : Prop :=
  match t with
  | Leaf value =>
      List.length value = k /\ Forall (fun w => 0 <= w) value /\
      0 < vsum value
  | Node _ _ l r => fitted_tree k l /\ fitted_tree k r
  end.

End Sklearn.

(** ** The churn classifier pipeline ([model-training.py], part 2) and
     its use by the prediction form ([app.py]) *)

Module ChurnModel.
Import Pandas Numpy Sklearn.
Local Open Scope Q_scope.

(** One raw row in the schema of the training frame without its
    label. *)
Record Input : Type := mkInput {
  tenure : Q;
  monthly_charges : Q;
  total_charges : Q;
  contract : string;
  internet_service : string;
  online_security : string
}.

Definition numeric_features (r : Input) : list Q :=
  [tenure r; monthly_charges r; total_charges r].

Definition categorical_features (r : Input) : list string :=
  [contract r; internet_service r; online_security r].

(** The fitted pipeline: the encoder of the column transformer and
    the classifier. *)
Record Pipeline : Type := mkPipeline {
  preprocessor : OneHotEncoder;
  classifier : RandomForestClassifier
}.

(** The column transformer on one row: the numeric columns as they
    are, then the one-hot blocks of the categorical columns. *)
Definition ColumnTransformer_transform (enc : OneHotEncoder) (r : Input)
  : outcome (list Q) :=
  onehot <-- OneHotEncoder_transform enc (categorical_features r) ;
  Returned (numeric_features r ++ onehot).

(** [model.predict(input_data)[0]] *)
Definition predict (model : Pipeline) (r : Input) : outcome Z :=
  xt <-- ColumnTransformer_transform (preprocessor model) r ;
  forest_predict (classifier model) xt.

(** [model.predict_proba(input_data)[0]] *)
Definition predict_proba (model : Pipeline) (r : Input) : outcome (list Q) :=
  xt <-- ColumnTransformer_transform (preprocessor model) r ;
  forest_predict_proba (classifier model) xt.

(** The encoder [model.fit(X_train, y_train)] leaves in the pipeline:
    [OneHotEncoder(handle_unknown='ignore')] fitted on the three
    categorical columns of the training rows. *)
Definition fit_preprocessor (X_train : list Input) : OneHotEncoder :=
  OneHotEncoder_fit Ignore
    [map contract X_train; map internet_service X_train;
     map online_security X_train].

(** The width of the matrix the classifier is fitted on. *)
Definition encoded_width (enc : OneHotEncoder) : nat :=
  (3 + List.length (List.concat (categories_ enc)))%nat.

(** A pipeline as [model.fit(X_train, y_train)] leaves it, for a
    training set in which both labels occur.  The forest itself is
    grown by scikit-learn's randomised procedure, which is not
    modelled: any forest of at least one tree over the two classes and
    the encoded width stands for it. *)
Definition fitted (X_train : list Input) (model : Pipeline) : Prop :=
  preprocessor model = fit_preprocessor X_train /\
  classes_ (classifier model) = [0%Z; 1%Z] /\
  n_features_in_ (classifier model) = encoded_width (preprocessor model) /\
  estimators_ (classifier model) <> [] /\
  Forall (fitted_tree 2) (estimators_ (classifier model)).

(** A small training set, a two-tree forest for it, and an input
    whose contract and security plan the training set never shows. *)
Definition toy_train : list Input :=
  [ mkInput 12 50 600 "Month-to-month" "DSL" "Yes";
    mkInput 40 80 3200 "Two year" "Fiber optic" "Yes" ].

Definition toy_forest : RandomForestClassifier :=
  mkRandomForestClassifier [0%Z; 1%Z] 8
    [ Node 3 (1 # 2) (Leaf [3; 1]) (Leaf [1; 4]);
      Node 0 24 (Leaf [0; 2]) (Leaf [5; 0]) ].

Definition toy_model : Pipeline :=
  mkPipeline (fit_preprocessor toy_train) toy_forest.

Definition toy_input : Input :=
  mkInput 12 50 600 "One year" "DSL" "No".

End ChurnModel.

(** ** Definitions for the further properties *)

From Stdlib Require Import Sorted.

(** *** Reference notions for the RFM frame *)

Module RFMReference.
Import Pandas RFM.

(** The invariant of the data model in its own words, on the cells of
    a row and without the string conversion of the notebook: an invoice
    id carries the cancellation marker when it is a text whose first
    character is the letter C; an invoice number carries none. *)
Definition cancellation_marked (i : invoice_id) : Prop :=
  match i with
  | InvStr (String c _) => c = "C"%char
  | InvStr EmptyString => False
  | InvInt _ => False
  end.

(** A row the invariant excludes: no customer id, or a marked invoice
    id. *)
Definition excluded (t : Transaction) : Prop :=
  CustomerID t = None \/ cancellation_marked (Invoice t).

(** The same condition as a test. *)
Definition excludedb (t : Transaction) : bool :=
  match CustomerID t, Invoice t with
  | None, _ => true
  | Some _, InvStr (String c _) => Ascii.eqb c "C"%char
  | Some _, InvStr EmptyString => false
  | Some _, InvInt _ => false
  end.

(** Two output rows that agree on every column but the monetary one
    (a floating-point sum depends on the order of its terms, so that
    column is not compared). *)
Definition same_but_monetary (a b : Customer) : Prop :=
  customer_id a = customer_id b /\
  Recency a = Recency b /\
  Frequency a = Frequency b /\
  FirstPurchaseDate a = FirstPurchaseDate b /\
  Tenure a = Tenure b.

End RFMReference.

(** ** The contract of the integer draw of the generator *)

Module NumpyContracts.
Import Numpy.

(** [random_interval bound] answers between 0 and [bound], both
    included. *)
Definition interval_sampler {G} `{RandomState G} : Prop :=
  forall (bound : Z) (g : G),
    0 <= bound ->
    0 <= fst (random_interval bound g) /\ fst (random_interval bound g) <= bound.

End NumpyContracts.

(** ** The prediction form and the model analysis page ([app.py]) *)

Module PredictionPage.
Import Pandas Numpy Sklearn ChurnModel.
Local Open Scope Q_scope.

(** [proba[i]] *)
Definition getitem (v : list Q) (i : nat) : outcome Q :=
  match nth_error v i with
  | Some x => Returned x
  | None => Raised IndexError
  end.

(** The banner shown after a submission, with the probability it
    quotes. *)
Inductive banner : Type :=
| HighChurnRisk (probability : Q)
| LowChurnRisk (probability : Q).

(** The body of [if submitted:] up to the banner. *)
Definition prediction_result (model : Pipeline) (input_data : Input)
  : outcome banner :=
  prediction <-- predict model input_data ;
  proba <-- predict_proba model input_data ;
  if Z.eqb prediction 1
  then p <-- getitem proba 1 ; Returned (HighChurnRisk p)
  else p <-- getitem proba 0 ; Returned (LowChurnRisk p).

Definition quoted (b : banner) : Q :=
  match b with
  | HighChurnRisk p => p
  | LowChurnRisk p => p
  end.

(** A second input for the toy pipeline, with other values the
    training set never shows. *)
Definition toy_input' : Input :=
  mkInput 12 50 600 "Three year" "DSL" "Maybe".

End PredictionPage.

Module ModelAnalysis.
Import Pandas Numpy Sklearn ChurnModel.

Definition CATEGORICAL_FEATURES : list string :=
  ["contract"; "internet_service"; "online_security"]%string.

Definition NUMERIC_FEATURES : list string :=
  ["tenure"; "monthly_charges"; "total_charges"]%string.

(** The name of the indicator column of one category. *)
Definition feature_name (feature category : string) : string :=
  (feature ++ "_" ++ category)%string.

(** The column names the encoder saw at [fit]: the
    [categorical_features] of the training script. *)
Definition feature_names_in_ : list string :=
  ["contract"; "internet_service"; "online_security"]%string.

(** [ohe.get_feature_names_out(input_features)]: one name per
    indicator column, column by column; input features other than the
    names seen at [fit] are rejected. *)
Definition get_feature_names_out (enc : OneHotEncoder)
           (input_features : list string) : outcome (list string) :=
  if list_eq_dec string_dec input_features feature_names_in_
  then Returned
         (List.concat
            (map2 (fun feature cats => map (feature_name feature) cats)
                  input_features (categories_ enc)))
  else Raised ValueError.

(** [all_features = NUMERIC_FEATURES + list(cat_features)] *)
Definition all_features (model : Pipeline) : outcome (list string) :=
  cat_features <-- get_feature_names_out (preprocessor model)
                                         CATEGORICAL_FEATURES ;
  Returned (NUMERIC_FEATURES ++ cat_features).

End ModelAnalysis.

(** ** The data explorer page ([app.py]) *)

Module DataExplorer.
Import Pandas Numpy ChurnData.

(** [column[mask]]: the cells where the mask is true, in order. *)
Fixpoint select {A} (mask : list bool) (col : list A) : list A :=
  match mask, col with
  | b :: mask', x :: col' =>
      if b then x :: select mask' col' else select mask' col'
  | _, _ => []
  end.

(** [data[mask]]: the same selection in every column. *)
Definition getitem_mask (data : DataFrame) (mask : list bool) : DataFrame :=
  mkDataFrame (select mask (tenure data))
              (select mask (monthly_charges data))
              (select mask (total_charges data))
              (select mask (contract data))
              (select mask (internet_service data))
              (select mask (online_security data))
              (select mask (churn data)).

(** [column.isin(values)] *)
Definition isin (col values : list string) : list bool :=
  map (fun c => existsb (String.eqb c) values) col.

(** The frame shown after the two sidebar filters. *)
Definition filtered_data (data : DataFrame) (tenure_range : Z * Z)
           (contract_filter : list string) : DataFrame :=
  getitem_mask data
    (map2 andb
       (map2 andb
          (map (fun t => Z.leb (fst tenure_range) t) (tenure data))
          (map (fun t => Z.leb t (snd tenure_range)) (tenure data)))
       (isin (contract data) contract_filter)).

(** The default of the contract multiselect:
    [data['contract'].unique()]. *)
Definition default_contract_filter (data : DataFrame) : list string :=
  unique string_dec (contract data).

(** The default of the tenure slider. *)
Definition default_tenure_range : Z * Z := (0, 72).

(** A frame whose columns have one length. *)
Definition rectangular (data : DataFrame) : Prop :=
  let n := List.length (tenure data) in
  List.length (monthly_charges data) = n /\
  List.length (total_charges data) = n /\
  List.length (contract data) = n /\
  List.length (internet_service data) = n /\
  List.length (online_security data) = n /\
  List.length (churn data) = n.

(** The rows of a frame. *)
Definition rows (data : DataFrame)
  : list (Z * (Q * (Q * (string * (string * (string * Z)))))) :=
  combine (tenure data)
    (combine (monthly_charges data)
       (combine (total_charges data)
          (combine (contract data)
             (combine (internet_service data)
                (combine (online_security data) (churn data)))))).

(** The condition of the two filters on one row. *)
Definition shown (tenure_range : Z * Z) (contract_filter : list string)
           (row : Z * (Q * (Q * (string * (string * (string * Z))))))
  : bool :=
  Z.leb (fst tenure_range) (fst row) && Z.leb (fst row) (snd tenure_range)
  && existsb (String.eqb (fst (snd (snd (snd row))))) contract_filter.

(** A small frame to run the filters on. *)
Definition toy_frame : DataFrame :=
  mkDataFrame [5; 30; 60] [20; 55; 90]%Q [100; 1650; 5400]%Q
              ["Month-to-month"; "One year"; "Two year"]%string
              ["DSL"; "No"; "Fiber optic"]%string
              ["No"; "Yes"; "No"]%string
              [1; 0; 0].

End DataExplorer.

(** ** Fitting the pipeline ([model-training.py], part 2) *)

Module ForestFit.
Import Pandas Numpy Sklearn ChurnModel.
Local Open Scope Q_scope.

(** One training sample as the classifier sees it: the encoded row and
    its label. *)
Definition sample : Type := (list Q * Z)%type.

(** The class weights of the samples at a node: for each class, in the
    order of [classes_], the number of samples that carry it. *)
Definition class_weights (classes : list Z) (samples : list sample)
  : list Q :=
  map (fun c =>
         inject_Z (Z.of_nat (List.length
                               (filter (fun s => Z.eqb (snd s) c) samples))))
      classes.

(** Growing one tree.  The search for the split of a node (criterion,
    random feature subset, stopping rule) is the parameter [splitter];
    a split is kept only when it sends samples to both sides, and a
    node that is not split becomes a leaf holding its class weights.
    A node with [fuel] samples needs no more than [fuel] levels below
    it, both children of a split being smaller. *)
Fixpoint grow (splitter : list sample -> option (nat * Q)) (fuel : nat)
         (classes : list Z) (samples : list sample) : tree :=
  match fuel with
  | O => Leaf (class_weights classes samples)
  | S k =>
      match splitter samples with
      | None => Leaf (class_weights classes samples)
      | Some (feature, threshold) =>
          let below :=
            filter (fun s => Qle_bool (nth feature (fst s) 0) threshold)
                   samples in
          let above :=
            filter (fun s => negb (Qle_bool (nth feature (fst s) 0) threshold))
                   samples in
          match below, above with
          | _ :: _, _ :: _ =>
              Node feature threshold (grow splitter k classes below)
                   (grow splitter k classes above)
          | _, _ => Leaf (class_weights classes samples)
          end
      end
  end.

(** [DecisionTreeClassifier.fit] without a depth limit. *)
Definition DecisionTreeClassifier_fit
           (splitter : list sample -> option (nat * Q))
           (classes : list Z) (samples : list sample) : tree :=
  grow splitter (List.length samples) classes samples.

(** The default number of trees, and the bound of the seeds handed to
    the trees. *)
Definition n_estimators : nat := 100.
Definition MAX_INT : Z := 2147483647.

(** The bootstrap sample of a tree: the training samples at the drawn
    indices, with repetition.  Under the contract of the integer draw
    every index is one of a sample. *)
Definition take_samples (samples : list sample) (indices : list Z)
  : list sample :=
  flat_map (fun i => match nth_error samples (Z.to_nat i) with
                     | Some s => [s]
                     | None => []
                     end) indices.

(** The rows of a frame through the column transformer. *)
Fixpoint transform_all (enc : OneHotEncoder) (rows : list Input)
  : outcome (list (list Q)) :=
  match rows with
  | [] => Returned []
  | r :: rest =>
      x <-- ColumnTransformer_transform enc r ;
      xs <-- transform_all enc rest ;
      Returned (x :: xs)
  end.

Section Fit.
Context {G : Type} `{RandomState G}.

(** The split search of the tree with a given seed. *)
Variable splitter : Z -> list sample -> option (nat * Q).

(** [RandomForestClassifier(random_state=42).fit(X, y)]: the classes
    are the distinct labels, sorted; the forest's own generator, seeded
    with 42, hands one seed to each tree; each tree draws its bootstrap
    indices from a generator with its seed and is grown on the samples
    at those indices. *)
Definition RandomForestClassifier_fit (X : list (list Q)) (y : list Z)
  : RandomForestClassifier :=
  let classes := sort Z.leb (unique Z.eq_dec y) in
  let samples := combine X y in
  let n := List.length samples in
  let seeds := fst (randint 0 MAX_INT n_estimators (seed 42)) in
  mkRandomForestClassifier
    classes
    (match X with x :: _ => List.length x | [] => O end)
    (map (fun s =>
            let indices := fst (randint 0 (Z.of_nat n) n (seed s)) in
            DecisionTreeClassifier_fit (splitter s) classes
                                       (take_samples samples indices))
         seeds).

(** [model.fit(X_train, y_train)]: the encoder is fitted on the
    training rows, the rows are encoded with it and the forest is
    fitted on the encoded rows.  Rows and labels of different numbers,
    or no row at all, are rejected. *)
Definition Pipeline_fit (X_train : list Input) (y_train : list Z)
  : outcome Pipeline :=
  if (Nat.eqb (List.length X_train) (List.length y_train)
      && negb (Nat.eqb (List.length X_train) 0))%bool
  then
    let enc := fit_preprocessor X_train in
    Xt <-- transform_all enc X_train ;
    Returned (mkPipeline enc (RandomForestClassifier_fit Xt y_train))
  else Raised ValueError.

End Fit.

(** A split search for the toy training set: split once on the first
    column. *)
Definition toy_splitter (_ : Z) (samples : list sample)
  : option (nat * Q) :=
  Some (O, 24).

End ForestFit.

(* ================================================================== *)
(** * Part II: properties *)
(* ================================================================== *)

(** ** Facts about the pandas fragment *)

Section PandasFacts.
Import Pandas.

Context {A : Type} (eq_dec : forall a b : A, {a = b} + {a <> b}).

Lemma unique_from_In (xs seen : list A) (x : A) :
  In x (unique_from eq_dec seen xs) <-> In x xs /\ ~ In x seen.
Proof.
  revert seen; induction xs as [|y rest IH]; intros seen; simpl.
  - tauto.
  - destruct (in_dec eq_dec y seen) as [Hy|Hy].
    + rewrite IH. split.
      * tauto.
      * intros [[->|H] Hn]; [contradiction | tauto].
    + simpl. rewrite IH. simpl. split.
      * intros [->|[H Hn]]; [tauto|]. split; [tauto|]. intro; apply Hn; tauto.
      * intros [[->|H] Hn]; [tauto|].
        destruct (eq_dec y x) as [->|Hne]; [tauto|].
        right. split; [assumption|]. intros [E|E]; [contradiction | tauto].
Qed.

Lemma unique_from_NoDup (xs seen : list A) :
  NoDup (unique_from eq_dec seen xs).
Proof.
  revert seen; induction xs as [|y rest IH]; intros seen; simpl.
  - constructor.
  - destruct (in_dec eq_dec y seen); [apply IH|].
    constructor; [|apply IH].
    rewrite unique_from_In. simpl. tauto.
Qed.

Lemma unique_In (xs : list A) (x : A) : In x (unique eq_dec xs) <-> In x xs.
Proof. unfold unique. rewrite unique_from_In. simpl. tauto. Qed.

Lemma unique_NoDup (xs : list A) : NoDup (unique eq_dec xs).
Proof. apply unique_from_NoDup. Qed.

Lemma unique_from_length_le (xs seen : list A) :
  (List.length (unique_from eq_dec seen xs) <= List.length xs)%nat.
Proof.
  revert seen; induction xs as [|y rest IH]; intros seen; simpl.
  - lia.
  - destruct (in_dec eq_dec y seen); simpl.
    + specialize (IH seen). lia.
    + specialize (IH (y :: seen)). lia.
Qed.

Lemma nunique_le_length (xs : list A) :
  (nunique eq_dec xs <= List.length xs)%nat.
Proof. apply unique_from_length_le. Qed.

Variable leb : A -> A -> bool.

Lemma insert_sorted_In (x y : A) (l : list A) :
  In y (insert_sorted leb x l) <-> y = x \/ In y l.
Proof.
  induction l as [|z rest IH]; simpl.
  - intuition congruence.
  - destruct (leb x z); simpl; [intuition congruence|].
    rewrite IH. intuition congruence.
Qed.

Lemma sort_In (y : A) (l : list A) : In y (sort leb l) <-> In y l.
Proof.
  induction l as [|z rest IH]; simpl; [tauto|].
  rewrite insert_sorted_In, IH. intuition congruence.
Qed.

Lemma insert_sorted_NoDup (x : A) (l : list A) :
  ~ In x l -> NoDup l -> NoDup (insert_sorted leb x l).
Proof.
  induction l as [|z rest IH]; simpl; intros Hx Hl.
  - constructor; [tauto | constructor].
  - destruct (leb x z).
    + constructor; simpl; tauto.
    + inversion Hl as [|? ? Hz Hrest]; subst.
      constructor.
      * rewrite insert_sorted_In. intros [->|H]; tauto.
      * apply IH; tauto.
Qed.

Lemma sort_NoDup (l : list A) : NoDup l -> NoDup (sort leb l).
Proof.
  induction l as [|z rest IH]; simpl; intros Hl; [constructor|].
  inversion Hl; subst.
  apply insert_sorted_NoDup; [rewrite sort_In|]; tauto.
Qed.

End PandasFacts.

Section SeriesFacts.
Import Pandas.

Lemma fold_max_spec (xs : list Z) (a : Z) :
  let m := fold_left Z.max xs a in
  (m = a \/ In m xs) /\ a <= m /\ (forall x, In x xs -> x <= m).
Proof.
  revert a; induction xs as [|y rest IH]; intros a; simpl.
  - repeat split; [tauto | lia | tauto].
  - destruct (IH (Z.max a y)) as (Hin & Hle & Hall).
    repeat split.
    + destruct Hin as [E|Hin]; [|tauto].
      destruct (Z.max_spec a y) as [[_ E']|[_ E']]; rewrite E' in E;
        [right; left | left]; congruence.
    + lia.
    + intros x [->|Hx]; [lia | auto].
Qed.

Lemma fold_min_spec (xs : list Z) (a : Z) :
  let m := fold_left Z.min xs a in
  (m = a \/ In m xs) /\ m <= a /\ (forall x, In x xs -> m <= x).
Proof.
  revert a; induction xs as [|y rest IH]; intros a; simpl.
  - repeat split; [tauto | lia | tauto].
  - destruct (IH (Z.min a y)) as (Hin & Hle & Hall).
    repeat split.
    + destruct Hin as [E|Hin]; [|tauto].
      destruct (Z.min_spec a y) as [[_ E']|[_ E']]; rewrite E' in E;
        [left | right; left]; congruence.
    + lia.
    + intros x [->|Hx]; [lia | auto].
Qed.

(** The maximum of a non-empty column is one of its cells and bounds
    every cell. *)
Lemma series_max_spec (xs : list Z) :
  xs <> [] ->
  exists m, series_max xs = Some m /\ In m xs /\ forall x, In x xs -> x <= m.
Proof.
  destruct xs as [|a rest]; [congruence|]; intros _.
  destruct (fold_max_spec rest a) as (Hin & Hle & Hall).
  eexists; split; [reflexivity|]. simpl. split.
  - destruct Hin as [E|Hin]; [left; symmetry; exact E | right; exact Hin].
  - intros x [<-|Hx]; auto.
Qed.

Lemma series_min_spec (xs : list Z) :
  xs <> [] ->
  exists m, series_min xs = Some m /\ In m xs /\ forall x, In x xs -> m <= x.
Proof.
  destruct xs as [|a rest]; [congruence|]; intros _.
  destruct (fold_min_spec rest a) as (Hin & Hle & Hall).
  eexists; split; [reflexivity|]. simpl. split.
  - destruct Hin as [E|Hin]; [left; symmetry; exact E | right; exact Hin].
  - intros x [<-|Hx]; auto.
Qed.

(** The text of an integer never starts with a letter. *)
Lemma py_str_int_not_C (n : Z) : startswith "C"%char (py_str_int n) = false.
Proof.
  unfold py_str_int, Z.to_int.
  destruct n as [|p|p]; [reflexivity | |]; simpl.
  - destruct (Pos.to_uint p); reflexivity.
  - reflexivity.
Qed.

Lemma startswith_spec (c : ascii) (s : string) :
  startswith c s = true <-> exists rest, s = String c rest.
Proof.
  destruct s as [|a rest]; simpl.
  - split; [discriminate | intros [? ?]; discriminate].
  - rewrite Ascii.eqb_eq. split.
    + intros ->; eauto.
    + intros [? E]; congruence.
Qed.

Lemma days_nonneg (ns : Z) : 0 <= ns -> 0 <= ns / NS_PER_DAY.
Proof. intros; apply Z.div_pos; [assumption | reflexivity]. Qed.

Lemma days_zero_iff (ns : Z) :
  0 <= ns -> (ns / NS_PER_DAY = 0 <-> ns < NS_PER_DAY).
Proof.
  intros Hns. split.
  - intros E. destruct (Z.lt_ge_cases ns NS_PER_DAY) as [|Hge]; [assumption|].
    assert (1 <= ns / NS_PER_DAY).
    { apply Z.div_le_lower_bound; [reflexivity | lia]. }
    lia.
  - intros Hlt. apply Z.div_small; lia.
Qed.

End SeriesFacts.

(** ** Facts about the RFM feature builder *)

Section RFMFacts.
Import Pandas RFM.

Local Abbreviation dates x := (map (fun r => InvoiceDate (txn r)) x).
Local Abbreviation invoices x := (map (fun r => Invoice (txn r)) x).

Lemma filter_filter {A} (f g : A -> bool) (l : list A) :
  filter f (filter g l) = filter (fun x => g x && f x) l.
Proof.
  induction l as [|a l IH]; simpl; [reflexivity|].
  destruct (g a); simpl; [destruct (f a)|]; rewrite IH; reflexivity.
Qed.

Lemma filter_map_comm {A B} (f : B -> bool) (h : A -> B) (l : list A) :
  filter f (map h l) = map h (filter (fun x => f (h x)) l).
Proof.
  induction l as [|a l IH]; simpl; [reflexivity|].
  destruct (f (h a)); simpl; rewrite IH; reflexivity.
Qed.

(** The two successive masks amount to one pass keeping the rows
    that satisfy [kept]. *)
Lemma preprocess_rows (data : list Transaction) :
  map txn (preprocess data) = filter kept data.
Proof.
  unfold preprocess, add_total_price, drop_cancelled, dropna_customer.
  rewrite map_map; simpl. rewrite map_id, filter_filter.
  apply filter_ext; intros t. unfold kept.
  destruct (CustomerID t); reflexivity.
Qed.

Lemma preprocess_group (data : list Transaction) (c : Z) :
  map txn (filter (has_customer c) (preprocess data)) = rows_of data c.
Proof.
  unfold rows_of.
  rewrite <- filter_filter, <- preprocess_rows.
  rewrite filter_map_comm. reflexivity.
Qed.

Lemma customer_keys_In (data : list Row) (c : Z) :
  In c (customer_keys data) <->
  exists r, In r data /\ CustomerID (txn r) = Some c.
Proof.
  unfold customer_keys. rewrite in_flat_map. split.
  - intros (r & Hr & Hc). exists r. split; [assumption|].
    destruct (CustomerID (txn r)); simpl in Hc; [|contradiction].
    destruct Hc as [->|[]]; reflexivity.
  - intros (r & Hr & Hc). exists r. split; [assumption|].
    rewrite Hc. simpl. tauto.
Qed.

Lemma has_customer_true (c : Z) (r : Row) :
  has_customer c r = true <-> CustomerID (txn r) = Some c.
Proof.
  unfold has_customer. destruct (CustomerID (txn r)) as [c'|].
  - rewrite Z.eqb_eq. split; congruence.
  - split; discriminate.
Qed.

(** A group is never empty. *)
Lemma group_nonempty (data : list Row) (c : Z) :
  In c (customer_keys data) -> filter (has_customer c) data <> [].
Proof.
  rewrite customer_keys_In. intros (r & Hr & Hc) E.
  assert (H : In r (filter (has_customer c) data)).
  { apply filter_In. split; [assumption|]. apply has_customer_true, Hc. }
  rewrite E in H. exact H.
Qed.

Lemma groupby_In (data : list Row) (c : Z) (x : list Row) :
  In (c, x) (groupby data) <->
  In c (customer_keys data) /\ x = filter (has_customer c) data.
Proof.
  unfold groupby. rewrite in_map_iff. split.
  - intros (k & E & Hk). inversion E; subst.
    rewrite sort_In, unique_In in Hk. tauto.
  - intros (Hc & ->). exists c. split; [reflexivity|].
    rewrite sort_In, unique_In. assumption.
Qed.

Lemma groupby_keys_NoDup (data : list Row) : NoDup (map fst (groupby data)).
Proof.
  unfold groupby. rewrite map_map; simpl. rewrite map_id.
  apply sort_NoDup, unique_NoDup.
Qed.

Lemma merge_In {A B} (left : list (Z * A)) (right : list (Z * B))
      (c : Z) (a : A) (b : B) :
  In (c, (a, b)) (merge left right) <-> In (c, a) left /\ In (c, b) right.
Proof.
  unfold merge. rewrite in_flat_map. split.
  - intros ([c1 a1] & Hl & Hin). simpl in Hin.
    rewrite in_map_iff in Hin. destruct Hin as ([c2 b2] & E & Hr).
    rewrite filter_In in Hr. destruct Hr as [Hr Hk]. simpl in *.
    apply Z.eqb_eq in Hk. inversion E; subst. tauto.
  - intros [Hl Hr]. exists (c, a). split; [assumption|]. simpl.
    rewrite in_map_iff. exists (c, b). split; [reflexivity|].
    rewrite filter_In. simpl. rewrite Z.eqb_refl. tauto.
Qed.

(** Every output row is the aggregate of the group of its customer. *)
Lemma rfm_of_rows_In (data : list Row) (r : Customer) :
  In r (rfm_of_rows data) ->
  let x := filter (has_customer (customer_id r)) data in
  In (customer_id r) (customer_keys data) /\
  Recency r = days (timestamp_sub (latest_date data) (series_max (dates x))) /\
  Frequency r = nunique invoice_eq_dec (invoices x) /\
  Monetary r = sum_Q (map TotalPrice x) /\
  FirstPurchaseDate r = series_min (dates x) /\
  Tenure r = days (timestamp_sub (latest_date data) (series_min (dates x))).
Proof.
  unfold rfm_of_rows. rewrite in_map_iff.
  intros ([c [[[rec freq] mon] first]] & <- & Hm).
  apply merge_In in Hm. destruct Hm as [Ha Hf].
  unfold rfm_agg in Ha. unfold customer_first_purchase in Hf.
  rewrite in_map_iff in Ha, Hf.
  destruct Ha as ([c1 x1] & E1 & H1). destruct Hf as ([c2 x2] & E2 & H2).
  simpl in E1, E2. inversion E1; inversion E2; subst.
  apply groupby_In in H1. apply groupby_In in H2.
  destruct H1 as [Hc ->]. destruct H2 as [_ ->].
  simpl. repeat split; try reflexivity. assumption.
Qed.

(** Every customer present in the data has an output row. *)
Lemma rfm_of_rows_complete (data : list Row) (c : Z) :
  In c (customer_keys data) ->
  exists r, In r (rfm_of_rows data) /\ customer_id r = c.
Proof.
  intros Hc.
  set (x := filter (has_customer c) data).
  assert (Hg : In (c, x) (groupby data)) by (apply groupby_In; tauto).
  eexists (add_tenure (latest_date data) (c, ((_, _, _), _))).
  split; [|reflexivity].
  unfold rfm_of_rows. apply in_map. apply merge_In. split.
  - unfold rfm_agg. apply in_map_iff. exists (c, x). split; [reflexivity|exact Hg].
  - unfold customer_first_purchase. apply in_map_iff.
    exists (c, x). split; [reflexivity|exact Hg].
Qed.

Lemma latest_date_bound (data : list Row) (r : Row) :
  In r data ->
  exists l, latest_date data = Some l /\ InvoiceDate (txn r) <= l /\
            exists r', In r' data /\ InvoiceDate (txn r') = l.
Proof.
  intros Hr. unfold latest_date.
  destruct (series_max_spec (dates data)) as (l & E & Hin & Hall).
  { destruct data; [contradiction | discriminate]. }
  exists l. split; [assumption|]. split.
  - apply Hall. apply in_map_iff. eauto.
  - apply in_map_iff in Hin. destruct Hin as (r' & E' & Hr'). eauto.
Qed.

End RFMFacts.

(** ** Properties of the RFM features *)

Section RFMProperties.
Import Pandas RFM.

Lemma rows_of_In (data : list Transaction) (c : Z) (t : Transaction) :
  In t (rows_of data c) <->
  In t data /\ kept t = true /\ CustomerID t = Some c.
Proof.
  unfold rows_of. rewrite filter_In, andb_true_iff.
  destruct (CustomerID t) as [c'|].
  - rewrite Z.eqb_eq. intuition congruence.
  - intuition discriminate.
Qed.

(** What an output row of the feature builder holds, in terms of the
    kept rows of its customer. *)
Lemma rfm_features_In (data : list Transaction) (r : Customer) :
  In r (rfm_features data) ->
  let x := rows_of data (customer_id r) in
  x <> [] /\
  Recency r = days (timestamp_sub (latest_date (preprocess data))
                                  (series_max (map InvoiceDate x))) /\
  Frequency r = nunique invoice_eq_dec (map Invoice x) /\
  FirstPurchaseDate r = series_min (map InvoiceDate x) /\
  Tenure r = days (timestamp_sub (latest_date (preprocess data))
                                 (series_min (map InvoiceDate x))).
Proof.
  intros Hr. apply rfm_of_rows_In in Hr.
  destruct Hr as (Hc & Hrec & Hfreq & _ & Hfirst & Hten).
  pose proof (preprocess_group data (customer_id r)) as Hg.
  cbv zeta. rewrite <- Hg.
  rewrite !map_map. repeat split; try assumption.
  intros E. apply map_eq_nil in E.
  exact (group_nonempty _ _ Hc E).
Qed.

Lemma rfm_features_complete (data : list Transaction) (c : Z) :
  rows_of data c <> [] ->
  exists r, In r (rfm_features data) /\ customer_id r = c.
Proof.
  intros Hne. apply rfm_of_rows_complete.
  rewrite <- preprocess_group in Hne.
  destruct (filter (has_customer c) (preprocess data)) as [|row rest] eqn:E;
    [contradiction|].
  assert (Hin : In row (filter (has_customer c) (preprocess data)))
    by (rewrite E; left; reflexivity).
  apply filter_In in Hin. destruct Hin as [Hin Hc].
  apply customer_keys_In. exists row. split; [assumption|].
  apply has_customer_true, Hc.
Qed.

(** The reference date exists and bounds the dates of every kept
    row of a customer of the output. *)
Lemma latest_date_rows (data : list Transaction) (c : Z) :
  rows_of data c <> [] ->
  exists l, latest_date (preprocess data) = Some l /\
            forall t, In t (rows_of data c) -> InvoiceDate t <= l.
Proof.
  intros Hne. unfold latest_date.
  destruct (series_max_spec
              (map (fun r => InvoiceDate (txn r)) (preprocess data)))
    as (l & E & _ & Hall).
  { rewrite <- map_map, preprocess_rows.
    destruct (rows_of data c) as [|t rest] eqn:Er; [contradiction|].
    assert (Ht : In t (rows_of data c)) by (rewrite Er; left; reflexivity).
    apply rows_of_In in Ht. destruct Ht as (Ht & Hk & _).
    assert (Hf : In t (filter kept data)) by (apply filter_In; tauto).
    destruct (filter kept data); [contradiction | discriminate]. }
  exists l. split; [assumption|].
  intros t Ht. apply Hall.
  rewrite <- map_map, preprocess_rows. apply in_map.
  apply rows_of_In in Ht. apply filter_In. tauto.
Qed.

(** C1.  The frequency of a customer of the output is the number of
    distinct invoice identifiers among the kept rows of that customer:
    it equals the length of any duplicate-free list holding exactly
    the invoice identifiers of those rows, however many rows repeat an
    identifier. *)
Theorem frequency_counts_distinct_invoices
        (data : list Transaction) (r : Customer) (invs : list invoice_id) :
  In r (rfm_features data) ->
  NoDup invs ->
  (forall i, In i invs <->
             exists t, In t (rows_of data (customer_id r)) /\ Invoice t = i) ->
  Frequency r = List.length invs.
Proof.
  intros Hr Hnd Hinvs.
  apply rfm_features_In in Hr. destruct Hr as (_ & _ & -> & _).
  unfold nunique. apply Permutation_length.
  apply NoDup_Permutation;
    [apply unique_NoDup | assumption |].
  intros i. rewrite unique_In, Hinvs, in_map_iff.
  split; intros (t & H1 & H2); exists t; tauto.
Qed.

(** Scenario 1: customer 1 has five kept rows over three distinct
    invoices and gets frequency 3. *)
Lemma frequency_scenario1 :
  let r := mkCustomer 1 (Some 3) 3 (134 # 4) (Some 0) (Some 12) in
  In r (rfm_features scenario1) /\
  List.length (rows_of scenario1 (customer_id r)) = 5%nat /\
  Frequency r = List.length [InvInt 1001; InvInt 1002; InvInt 1003].
Proof.
  cbv zeta.
  assert (Hin : In (mkCustomer 1 (Some 3) 3 (134 # 4) (Some 0) (Some 12))
                   (rfm_features scenario1))
    by (vm_compute; left; reflexivity).
  split; [exact Hin|]. split; [reflexivity|].
  apply (frequency_counts_distinct_invoices scenario1 _ _ Hin).
  - repeat constructor; simpl; intuition discriminate.
  - intros i. simpl. split.
    + intros [<-|[<-|[<-|[]]]];
        [ exists (mkTransaction (InvInt 1001) (Some 1) 2 (5#2) (day 0))
        | exists (mkTransaction (InvInt 1002) (Some 1) 1 (10#1) (day 3))
        | exists (mkTransaction (InvInt 1003) (Some 1) 1 (7#1) (day 9)) ];
        (split; [simpl; tauto | reflexivity]).
    + intros (t & Ht & <-).
      repeat (destruct Ht as [<-|Ht]; [simpl; tauto|]). destruct Ht.
Defined.

(** The notebook's two masks decide the invariant of the data model:
    the text of an invoice number never starts with a letter, and the
    text of a textual invoice id is that text. *)
Lemma kept_excludedb (t : Transaction) :
  kept t = negb (RFMReference.excludedb t).
Proof.
  unfold kept, RFMReference.excludedb.
  destruct (CustomerID t); [|reflexivity].
  destruct (Invoice t) as [n|[|c s]]; simpl; try reflexivity.
  rewrite py_str_int_not_C. reflexivity.
Qed.

Lemma excludedb_spec (t : Transaction) :
  RFMReference.excludedb t = true <-> RFMReference.excluded t.
Proof.
  unfold RFMReference.excludedb, RFMReference.excluded,
    RFMReference.cancellation_marked.
  destruct (CustomerID t); destruct (Invoice t) as [n|[|c s]];
    try rewrite Ascii.eqb_eq; intuition congruence.
Qed.

(** C2.  Before any aggregation the pipeline drops exactly the rows
    whose customer id is missing or whose invoice id is a text starting
    with the cancellation marker C: a row of the spreadsheet reaches
    the aggregation exactly when it is not such a row.  The surviving
    rows are the original rows, in their order and with their
    multiplicity, and the features computed from the spreadsheet are
    those computed from its surviving rows alone. *)
Theorem preprocessing_excludes_exactly
        (data : list Transaction) (t : Transaction) :
  In t data ->
  (In t (map txn (preprocess data)) <-> ~ RFMReference.excluded t) /\
  map txn (preprocess data)
  = filter (fun t' => negb (RFMReference.excludedb t')) data /\
  rfm_features data
  = rfm_features (filter (fun t' => negb (RFMReference.excludedb t')) data).
Proof.
  intros Ht.
  assert (Hrows : forall d,
             map txn (preprocess d)
             = filter (fun t' => negb (RFMReference.excludedb t')) d).
  { intros d. rewrite preprocess_rows. apply filter_ext.
    intros t'. apply kept_excludedb. }
  split; [|split].
  - rewrite Hrows, filter_In, negb_true_iff, <- excludedb_spec.
    destruct (RFMReference.excludedb t); intuition congruence.
  - apply Hrows.
  - unfold rfm_features. f_equal.
    assert (Hpre : forall d, preprocess d = add_total_price (filter kept d)).
    { intros d. unfold preprocess, drop_cancelled, dropna_customer.
      rewrite filter_filter. f_equal. apply filter_ext. intros t'.
      unfold kept. destruct (CustomerID t'); reflexivity. }
    rewrite (Hpre data), (Hpre (filter _ data)). f_equal.
    rewrite filter_filter. apply filter_ext. intros t'.
    rewrite kept_excludedb. destruct (RFMReference.excludedb t'); reflexivity.
Qed.

(** In scenario 1 the row of the credit note C1003 and the row
    without a customer id are dropped, the six other rows remain. *)
Lemma cancelled_row_is_dropped :
  let t := mkTransaction (InvStr "C1003") (Some 1) (-1) (7#1) (day 10) in
  In t scenario1 /\
  RFMReference.excluded t /\
  ~ In t (map txn (preprocess scenario1)) /\
  List.length (map txn (preprocess scenario1)) = 6%nat /\
  rfm_features scenario1
  = rfm_features
      (filter (fun t' => negb (RFMReference.excludedb t')) scenario1).
Proof.
  cbv zeta.
  assert (Hin : In (mkTransaction (InvStr "C1003") (Some 1) (-1) (7#1) (day 10))
                   scenario1)
    by (simpl; tauto).
  destruct (preprocessing_excludes_exactly scenario1 _ Hin) as (Hiff & _ & Hagg).
  assert (Hex : RFMReference.excluded
                  (mkTransaction (InvStr "C1003") (Some 1) (-1) (7#1) (day 10)))
    by (right; reflexivity).
  split; [exact Hin|]. split; [exact Hex|].
  split; [intros H; apply (proj1 Hiff H), Hex|].
  split; [reflexivity | exact Hagg].
Defined.

End RFMProperties.

Section RecencyTenure.
Import Pandas RFM.

Lemma recency_spec (data : list Transaction) (r : Customer) :
  In r (rfm_features data) ->
  exists l m,
    latest_date (preprocess data) = Some l /\
    series_max (map InvoiceDate (rows_of data (customer_id r))) = Some m /\
    m <= l /\
    (forall t, In t (rows_of data (customer_id r)) -> InvoiceDate t <= m) /\
    Recency r = Some ((l - m) / NS_PER_DAY).
Proof.
  intros Hr. apply rfm_features_In in Hr.
  destruct Hr as (Hne & Hrec & _).
  destruct (latest_date_rows _ _ Hne) as (l & El & Hl).
  destruct (series_max_spec (map InvoiceDate (rows_of data (customer_id r))))
    as (m & Em & Hin & Hall).
  { intros E. apply map_eq_nil in E. contradiction. }
  exists l, m. repeat split; try assumption.
  - apply in_map_iff in Hin. destruct Hin as (t & <- & Ht). auto.
  - intros t Ht. apply Hall, in_map, Ht.
  - rewrite Hrec, El, Em. reflexivity.
Qed.

Lemma tenure_spec (data : list Transaction) (r : Customer) :
  In r (rfm_features data) ->
  exists l f,
    latest_date (preprocess data) = Some l /\
    FirstPurchaseDate r = Some f /\
    f <= l /\
    (exists t, In t (rows_of data (customer_id r)) /\ InvoiceDate t = f) /\
    (forall t, In t (rows_of data (customer_id r)) -> f <= InvoiceDate t) /\
    Tenure r = Some ((l - f) / NS_PER_DAY).
Proof.
  intros Hr. apply rfm_features_In in Hr.
  destruct Hr as (Hne & _ & _ & Hfirst & Hten).
  destruct (latest_date_rows _ _ Hne) as (l & El & Hl).
  destruct (series_min_spec (map InvoiceDate (rows_of data (customer_id r))))
    as (f & Ef & Hin & Hall).
  { intros E. apply map_eq_nil in E. contradiction. }
  apply in_map_iff in Hin. destruct Hin as (t & Et & Ht).
  exists l, f. repeat split; try assumption.
  - congruence.
  - rewrite <- Et. auto.
  - exists t. tauto.
  - intros t' Ht'. apply Hall, in_map, Ht'.
  - rewrite Hten, El, Ef. reflexivity.
Qed.

(** The customer of the latest kept row. *)
Lemma latest_customer (data : list Transaction) :
  preprocess data <> [] ->
  exists l c t, latest_date (preprocess data) = Some l /\
                In t (rows_of data c) /\ InvoiceDate t = l.
Proof.
  intros Hne. destruct (preprocess data) as [|row rest] eqn:E; [contradiction|].
  destruct (latest_date_bound (row :: rest) row) as (l & El & _ & r' & Hr' & Ed);
    [left; reflexivity|].
  rewrite <- E in Hr'.
  assert (Ht : In (txn r') (filter kept data)).
  { rewrite <- preprocess_rows. apply in_map, Hr'. }
  apply filter_In in Ht. destruct Ht as [Ht Hk].
  destruct (CustomerID (txn r')) as [c|] eqn:Ec.
  - exists l, c, (txn r'). repeat split; try assumption.
    apply rows_of_In. tauto.
  - unfold kept in Hk. rewrite Ec in Hk. discriminate.
Qed.

(** C3.  On a non-empty filtered data set every customer has a
    recency, it is not negative, it is 0 for a customer one of whose
    kept rows carries the data-set-wide latest timestamp, and such a
    customer exists. *)
Theorem recency_nonneg_zero_at_latest
        (data : list Transaction) (r : Customer) :
  In r (rfm_features data) ->
  exists l d,
    latest_date (preprocess data) = Some l /\
    Recency r = Some d /\ 0 <= d /\
    ((exists t, In t (rows_of data (customer_id r)) /\ InvoiceDate t = l) ->
     d = 0) /\
    (exists r0, In r0 (rfm_features data) /\ Recency r0 = Some 0).
Proof.
  intros Hr.
  assert (Hzero : forall r' l',
             In r' (rfm_features data) ->
             latest_date (preprocess data) = Some l' ->
             (exists t, In t (rows_of data (customer_id r')) /\
                        InvoiceDate t = l') ->
             Recency r' = Some 0).
  { intros r' l' Hr' El' (t & Ht & Et).
    destruct (recency_spec _ _ Hr') as (l & m & El & _ & Hml & Hall & ->).
    assert (l = l') by congruence. subst l'.
    specialize (Hall t Ht).
    replace (l - m) with 0 by lia. reflexivity. }
  destruct (recency_spec _ _ Hr) as (l & m & El & Em & Hml & Hall & Hrec).
  exists l, ((l - m) / NS_PER_DAY).
  split; [assumption|]. split; [assumption|].
  split; [apply days_nonneg; lia|]. split.
  - intros Hex. specialize (Hzero r l Hr El Hex). congruence.
  - destruct (latest_customer data) as (l' & c & t & El' & Ht & Et).
    { unfold rfm_features, rfm_of_rows in Hr.
      intros E. rewrite E in Hr. exact Hr. }
    destruct (rfm_features_complete data c) as (r0 & Hr0 & Hc).
    { intros E. rewrite E in Ht. exact Ht. }
    exists r0. split; [assumption|].
    apply (Hzero r0 l' Hr0 El'). exists t. rewrite Hc. tauto.
Qed.

Lemma recency_scenario1 :
  let r := mkCustomer 1 (Some 3) 3 (134 # 4) (Some 0) (Some 12) in
  In r (rfm_features scenario1) /\
  exists l d,
    latest_date (preprocess scenario1) = Some l /\
    Recency r = Some d /\ 0 <= d /\
    ((exists t, In t (rows_of scenario1 (customer_id r)) /\ InvoiceDate t = l) ->
     d = 0) /\
    (exists r0, In r0 (rfm_features scenario1) /\ Recency r0 = Some 0).
Proof.
  cbv zeta.
  assert (Hin : In (mkCustomer 1 (Some 3) 3 (134 # 4) (Some 0) (Some 12))
                   (rfm_features scenario1))
    by (vm_compute; left; reflexivity).
  split; [exact Hin|].
  exact (recency_nonneg_zero_at_latest scenario1 _ Hin).
Defined.

(** C4 fails as stated: a customer with a single purchase ten days
    before the latest purchase of the data set has tenure 10. *)
Lemma single_purchase_tenure_not_zero :
  exists r, In r (rfm_features single_purchases) /\
            List.length (rows_of single_purchases (customer_id r)) = 1%nat /\
            Tenure r = Some 10 /\ Tenure r <> Some 0.
Proof.
  exists (mkCustomer 1 (Some 10) 1 (1#1) (Some 0) (Some 10)).
  split; [vm_compute; left; reflexivity|].
  split; [reflexivity|]. split; [reflexivity | discriminate].
Qed.

(** C4, amended.  A customer with exactly one kept row gets as tenure
    the whole days from that row's timestamp to the data-set-wide
    latest timestamp, which is also its recency; the tenure is 0
    exactly when that row is less than one day older than the latest
    timestamp. *)
Theorem single_purchase_tenure
        (data : list Transaction) (r : Customer) (t : Transaction) :
  In r (rfm_features data) ->
  rows_of data (customer_id r) = [t] ->
  exists l,
    latest_date (preprocess data) = Some l /\
    Tenure r = Some ((l - InvoiceDate t) / NS_PER_DAY) /\
    Tenure r = Recency r /\
    (Tenure r = Some 0 <-> l - InvoiceDate t < NS_PER_DAY).
Proof.
  intros Hr Hrows.
  destruct (tenure_spec _ _ Hr) as (l & f & El & _ & Hfl & (t1 & Ht1 & Ef) & _ & Hten).
  destruct (recency_spec _ _ Hr) as (l' & m & El' & Em & _ & _ & Hrec).
  rewrite Hrows in Ht1, Em. simpl in Ht1, Em.
  destruct Ht1 as [<-|[]]. injection Em as <-.
  assert (l' = l) by congruence. subst l' f.
  exists l. split; [assumption|]. split; [assumption|].
  split; [congruence|].
  rewrite Hten. rewrite <- (days_zero_iff (l - InvoiceDate t)) by lia.
  split; congruence.
Qed.

Lemma single_purchase_tenure_example :
  let r := mkCustomer 1 (Some 10) 1 (1#1) (Some 0) (Some 10) in
  let t := mkTransaction (InvInt 1) (Some 1) 1 (1#1) (day 0) in
  In r (rfm_features single_purchases) /\
  rows_of single_purchases (customer_id r) = [t] /\
  exists l,
    latest_date (preprocess single_purchases) = Some l /\
    Tenure r = Some ((l - InvoiceDate t) / NS_PER_DAY) /\
    Tenure r = Recency r /\
    (Tenure r = Some 0 <-> l - InvoiceDate t < NS_PER_DAY).
Proof.
  cbv zeta.
  assert (Hin : In (mkCustomer 1 (Some 10) 1 (1#1) (Some 0) (Some 10))
                   (rfm_features single_purchases))
    by (vm_compute; left; reflexivity).
  split; [exact Hin|]. split; [reflexivity|].
  apply (single_purchase_tenure single_purchases _ _ Hin). reflexivity.
Defined.




End RecencyTenure.

(** ** Facts about the numpy fragment *)

Section NumpyFacts.
Import Numpy.
Local Open Scope Q_scope.

Lemma draws_length {G A} (size : nat) (m : Rand G A) (g : G) :
  List.length (fst (draws size m g)) = size.
Proof.
  revert g; induction size as [|k IH]; intros g; simpl; [reflexivity|].
  unfold bind. destruct (m g) as [x g1].
  specialize (IH g1). destruct (draws k m g1) as [xs g2].
  simpl in *. congruence.
Qed.

Lemma draw_each_length {G A B} (f : A -> Rand G B) (ps : list A) (g : G) :
  List.length (fst (draw_each f ps g)) = List.length ps.
Proof.
  revert g; induction ps as [|p rest IH]; intros g; simpl; [reflexivity|].
  unfold bind. destruct (f p g) as [x g1].
  specialize (IH g1). destruct (draw_each f rest g1) as [xs g2].
  simpl in *. congruence.
Qed.

Lemma choice_length {G} `{RandomState G} (a : list string) (size : nat)
      (g : G) :
  List.length (fst (choice a size g)) = size.
Proof.
  unfold choice, bind, randint.
  match goal with |- context [draws size ?m g] =>
    pose proof (draws_length size m g) as Hl;
    destruct (draws size m g) as [idx g1]
  end.
  simpl in *. rewrite length_map. exact Hl.
Qed.

Lemma map2_length {A B C} (f : A -> B -> C) (xs : list A) (ys : list B) :
  List.length xs = List.length ys ->
  List.length (map2 f xs ys) = List.length xs.
Proof.
  revert ys; induction xs as [|x xs IH]; intros [|y ys] E; simpl in *;
    try reflexivity; try discriminate.
  f_equal. apply IH. congruence.
Qed.

Lemma nth_map_lt {A B} (f : A -> B) (l : list A) (i : nat) (d : B) (d' : A) :
  (i < List.length l)%nat -> nth i (map f l) d = f (nth i l d').
Proof.
  revert i; induction l as [|a l IH]; intros [|i] Hi; simpl in *;
    try lia; [reflexivity|].
  apply IH. lia.
Qed.

Lemma nth_map2_lt {A B C} (f : A -> B -> C) (xs : list A) (ys : list B)
      (i : nat) (d : C) (dx : A) (dy : B) :
  (i < List.length xs)%nat -> (i < List.length ys)%nat ->
  nth i (map2 f xs ys) d = f (nth i xs dx) (nth i ys dy).
Proof.
  revert ys i; induction xs as [|x xs IH]; intros [|y ys] [|i] Hx Hy;
    simpl in *; try lia; [reflexivity|].
  apply IH; lia.
Qed.

(** Clipping lands between the bounds. *)
Lemma clip1_range (lo hi x : Q) :
  lo <= hi -> lo <= clip1 lo hi x /\ clip1 lo hi x <= hi.
Proof.
  intros Hlh. unfold clip1. split.
  - apply Q.min_glb; [apply Q.le_max_r | assumption].
  - apply Q.le_min_r.
Qed.

(** Rounding to the nearest integer moves by at most one half. *)
Lemma rint_error (x : Q) :
  x - (1 # 2) <= inject_Z (rint x) /\ inject_Z (rint x) <= x + (1 # 2).
Proof.
  unfold rint.
  pose proof (Qfloor_le x) as Hlo.
  pose proof (Qlt_floor x) as Hhi.
  set (f := Qfloor x) in *.
  assert (E1 : inject_Z (f + 1) == inject_Z f + 1).
  { rewrite inject_Z_plus. reflexivity. }
  rewrite E1 in Hhi.
  destruct (Qcompare (x - inject_Z f) (1 # 2)) eqn:C.
  - apply Qeq_alt in C.
    destruct (Z.even f); [|rewrite E1]; lra.
  - apply Qlt_alt in C. lra.
  - apply Qgt_alt in C. rewrite E1. lra.
Qed.

(** Rounding to two decimals moves by at most half a cent. *)
Lemma round2_error (x : Q) : Qabs (round2 x - x) <= 1 # 200.
Proof.
  unfold round2.
  destruct (rint_error (x * 100)) as [Hlo Hhi].
  set (r := inject_Z (rint (x * 100))) in *.
  apply Qabs_Qle_condition.
  assert (E : r / 100 == r * (1 # 100)) by (unfold Qdiv; reflexivity).
  rewrite E. split; lra.
Qed.

(** Under its contract the scalar [uniform] stays between its
    bounds. *)
Lemma uniform_range {G} `{RandomState G} (low high : Q) (g : G) :
  unit_interval_sampler -> low <= high ->
  low <= fst (uniform low high g) /\ fst (uniform low high g) <= high.
Proof.
  intros Hs Hlh. unfold uniform.
  destruct (Hs g) as [H0 H1].
  destruct (random_sample g) as [u g']. simpl in *.
  split; nra.
Qed.

Lemma lcg_unit_interval : @unit_interval_sampler Z lcg.
Proof.
  intros g.
  assert (Hm : (0 <= lcg_next g < 2147483648)%Z)
    by (apply Z.mod_pos_bound; reflexivity).
  change (fst (random_sample g)) with (lcg_next g # 2147483648).
  unfold Qle, Qlt. cbn [Qnum Qden]. lia.
Qed.

End NumpyFacts.

(** ** Properties of the synthetic churn generator *)

Section GeneratorProperties.
Import Numpy ChurnData.
Local Open Scope Q_scope.

Context {G : Type} `{RandomState G}.

(** Name the result of the next draw of a monadic computation. *)
Ltac next_draw :=
  match goal with
  | |- context [randint ?a ?b ?n ?g] =>
      let l := fresh "tenure" in let g' := fresh "g" in
      pose proof (draws_length n _ g : List.length (fst (randint a b n g)) = n);
      destruct (randint a b n g) as [l g']
  | |- context [uniform_array ?a ?b ?n ?g] =>
      let l := fresh "raw" in let g' := fresh "g" in
      pose proof (draws_length n _ g
                  : List.length (fst (uniform_array a b n g)) = n);
      destruct (uniform_array a b n g) as [l g']
  | |- context [choice ?a ?n ?g] =>
      let l := fresh "col" in let g' := fresh "g" in
      pose proof (choice_length a n g);
      destruct (choice a n g) as [l g']
  end.

(** The shape of the drawn features: every column has [num_samples]
    cells, and the total charge column is computed from the other
    two with the single jitter. *)
Lemma draw_features_spec (num_samples : nat) (g : G) :
  let f := fst (draw_features num_samples g) in
  List.length (f_tenure f) = num_samples /\
  List.length (f_monthly_charges f) = num_samples /\
  List.length (f_total_charges f) = num_samples /\
  List.length (f_contract f) = num_samples /\
  List.length (f_internet_service f) = num_samples /\
  List.length (f_online_security f) = num_samples /\
  f_total_charges f =
    np_round2 (mul_scalar (mul (map inject_Z (f_tenure f))
                               (f_monthly_charges f))
                          (f_jitter f)) /\
  (unit_interval_sampler ->
   (8 # 10) <= f_jitter f /\ f_jitter f <= (12 # 10)).
Proof.
  unfold draw_features, bind.
  next_draw. next_draw.
  pose proof (uniform_range (8 # 10) (12 # 10) g1) as Hu.
  destruct (uniform (8 # 10) (12 # 10) g1) as [jitter g2].
  next_draw. next_draw. next_draw.
  cbn [fst snd ret f_tenure f_monthly_charges f_total_charges f_contract
       f_internet_service f_online_security f_jitter] in *.
  unfold np_round2, mul_scalar, mul.
  rewrite !length_map, map2_length by (rewrite !length_map; congruence).
  rewrite !length_map.
  repeat split; try assumption.
  - apply Hu; [assumption | lra].
  - apply Hu; [assumption | lra].
Qed.

Lemma churn_prob_length (f : Features) (n : nat) :
  List.length (f_contract f) = n ->
  List.length (f_internet_service f) = n ->
  List.length (f_online_security f) = n ->
  List.length (f_monthly_charges f) = n ->
  List.length (churn_prob f) = n.
Proof.
  intros Hc Hi Hs Hm. unfold churn_prob, add, scalar_add, scalar_mul,
    eq_scalar, sub_scalar.
  repeat (rewrite map2_length || rewrite length_map); congruence.
Qed.

Lemma churn_prob_nth (f : Features) (n i : nat) :
  List.length (f_contract f) = n ->
  List.length (f_internet_service f) = n ->
  List.length (f_online_security f) = n ->
  List.length (f_monthly_charges f) = n ->
  (i < n)%nat ->
  nth i (churn_prob f) 0 =
  churn_prob1 (nth i (f_contract f) EmptyString)
              (nth i (f_internet_service f) EmptyString)
              (nth i (f_online_security f) EmptyString)
              (nth i (f_monthly_charges f) 0).
Proof.
  intros Hc Hi Hs Hm Hlt.
  unfold churn_prob, add, scalar_add, scalar_mul, eq_scalar, sub_scalar.
  assert (L : forall (A : Type) (l : list A), List.length l = n ->
                                              (i < List.length l)%nat)
    by (intros; lia).
  repeat
    (first
       [ rewrite (nth_map2_lt _ _ _ _ _ 0 0)
       | rewrite (nth_map_lt _ _ _ _ 0)
       | rewrite (nth_map_lt _ _ _ _ EmptyString) ];
     try (apply L; repeat (rewrite map2_length || rewrite length_map);
          congruence)).
  reflexivity.
Qed.

(** What [generate_data] returns, in terms of the features it draws
    from the freshly seeded generator. *)
Lemma generate_data_unfold (num_samples : nat) (g : G) :
  generate_data num_samples g =
  let (f, g1) := draw_features num_samples (seed 42) in
  let (labels, g2) := binomial 1 (bernoulli_p f) g1 in
  (pd_DataFrame (f_tenure f) (f_monthly_charges f) (f_total_charges f)
                (f_contract f) (f_internet_service f) (f_online_security f)
                labels, g2).
Proof.
  unfold generate_data, bind, np_random_seed, ret.
  destruct (draw_features num_samples (seed 42)) as [f g1].
  destruct (binomial 1 (bernoulli_p f) g1) as [labels g2]. reflexivity.
Qed.

(** The data frame is always built: the seven columns have one
    length. *)
Lemma generate_data_frame (num_samples : nat) (g : G) :
  let f := fst (draw_features num_samples (seed 42)) in
  exists df,
    fst (generate_data num_samples g) = Some df /\
    tenure df = f_tenure f /\
    monthly_charges df = f_monthly_charges f /\
    total_charges df = f_total_charges f /\
    List.length (churn df) = num_samples.
Proof.
  rewrite generate_data_unfold.
  pose proof (draw_features_spec num_samples (seed 42)) as Hf.
  destruct (draw_features num_samples (seed 42)) as [f g1].
  cbn [fst] in *.
  destruct Hf as (Ht & Hm & Htot & Hc & Hi & Hs & _ & _).
  pose proof (draw_each_length (binomial1 1) (bernoulli_p f) g1) as Hl.
  fold (binomial 1 (bernoulli_p f) g1) in Hl.
  destruct (binomial 1 (bernoulli_p f) g1) as [labels g2].
  cbn [fst] in *.
  assert (Hp : List.length (bernoulli_p f) = num_samples).
  { unfold bernoulli_p, np_clip. rewrite length_map.
    apply churn_prob_length; assumption. }
  unfold pd_DataFrame.
  rewrite Ht, Hm, Htot, Hc, Hi, Hs, Hl, Hp, Nat.eqb_refl. simpl.
  eexists. split; [reflexivity|]. simpl.
  repeat split; congruence.
Qed.

(** Each element of an array draw is one scalar draw with the
    parameter at its position. *)
Lemma draw_each_nth {A B} (f : A -> Rand G B) (ps : list A) (g0 : G)
      (i : nat) (d : B) (dp : A) :
  (i < List.length ps)%nat ->
  exists gi, nth i (fst (draw_each f ps g0)) d = fst (f (nth i ps dp) gi).
Proof.
  revert g0 i; induction ps as [|p0 rest IH]; intros g0 i Hi; simpl in Hi;
    [lia|].
  simpl. unfold bind.
  destruct (f p0 g0) as [x g1] eqn:E.
  specialize (IH g1). destruct (draw_each f rest g1) as [xs g2].
  destruct i as [|i].
  - exists g0. simpl. rewrite E. reflexivity.
  - simpl in *. apply IH. lia.
Qed.

(** The clipped array value agrees with the minimum and maximum of
    the standard library. *)
Lemma clip1_min_max (x y : Q) :
  x == y -> clip1 0 (9 # 10) x == Qmin (Qmax y 0) (9 # 10).
Proof.
  intros E. unfold clip1.
  destruct (Q.max_spec x 0) as [[? E1]|[? E1]];
    destruct (Q.max_spec y 0) as [[? E2]|[? E2]];
    destruct (Q.min_spec (Qmax x 0) (9 # 10)) as [[? E3]|[? E3]];
    destruct (Q.min_spec (Qmax y 0) (9 # 10)) as [[? E4]|[? E4]];
    lra.
Qed.

(** C6.  Every label of the generated frame is one Bernoulli draw
    ([binomial] with one trial) whose success probability lies between
    0 and 0.9 and is the linear combination
    0.1 + 0.3 [contract = Month-to-month] + 0.2 [internet = Fiber optic]
    + 0.15 [security = No] + 0.001 (monthly charge - 50)
    of the cells of its own row, clipped to the interval from 0 to 0.9.
    The agreement with the clipped combination is stated up to one
    billionth, which leaves room for the rounding of double-precision
    arithmetic. *)
Theorem churn_probability_clipped (num_samples : nat) (g : G) :
  exists df,
    fst (generate_data num_samples g) = Some df /\
    List.length (churn df) = num_samples /\
    forall i, (i < num_samples)%nat ->
      let x :=
        (1 # 10)
        + (if String.eqb (nth i (contract df) EmptyString) "Month-to-month"
           then 3 # 10 else 0)
        + (if String.eqb (nth i (internet_service df) EmptyString)
                         "Fiber optic"
           then 2 # 10 else 0)
        + (if String.eqb (nth i (online_security df) EmptyString) "No"
           then 15 # 100 else 0)
        + (1 # 1000) * (nth i (monthly_charges df) 0 - 50) in
      exists (p : Q) (gi : G),
        nth i (churn df) 0%Z = fst (binomial1 1 p gi) /\
        0 <= p /\ p <= 9 # 10 /\
        Qabs (p - Qmin (Qmax x 0) (9 # 10)) <= 1 # 1000000000.
Proof.
  rewrite generate_data_unfold.
  pose proof (draw_features_spec num_samples (seed 42)) as Hf.
  destruct (draw_features num_samples (seed 42)) as [f g1].
  cbn [fst] in Hf.
  destruct Hf as (Ht & Hm & Htot & Hc & Hi & Hs & _ & _).
  pose proof (churn_prob_length f num_samples Hc Hi Hs Hm) as Hlen.
  assert (Hp : List.length (bernoulli_p f) = num_samples)
    by (unfold bernoulli_p, np_clip; rewrite length_map; exact Hlen).
  pose proof (draw_each_length (binomial1 1) (bernoulli_p f) g1) as Hl.
  pose proof (fun i => draw_each_nth (binomial1 1) (bernoulli_p f) g1 i 0%Z 0)
    as Hnth.
  unfold binomial.
  destruct (draw_each (binomial1 1) (bernoulli_p f) g1) as [labels g2].
  cbn [fst] in *. unfold pd_DataFrame.
  rewrite Ht, Hm, Htot, Hc, Hi, Hs, Hl, Hp, Nat.eqb_refl. cbn [andb].
  eexists. split; [reflexivity|]. cbn [churn contract internet_service
    online_security monthly_charges].
  split; [congruence|].
  intros i Hlt.
  destruct (Hnth i) as (gi & Egi); [lia|].
  exists (nth i (bernoulli_p f) 0), gi.
  split; [exact Egi|].
  assert (Eclip : nth i (bernoulli_p f) 0 =
                  clip1 0 (9 # 10)
                        (churn_prob1 (nth i (f_contract f) EmptyString)
                                     (nth i (f_internet_service f) EmptyString)
                                     (nth i (f_online_security f) EmptyString)
                                     (nth i (f_monthly_charges f) 0))).
  { unfold bernoulli_p, np_clip.
    rewrite (nth_map_lt _ _ _ _ 0) by lia.
    rewrite (churn_prob_nth f num_samples i) by assumption. reflexivity. }
  rewrite Eclip.
  destruct (clip1_range 0 (9 # 10)
              (churn_prob1 (nth i (f_contract f) EmptyString)
                           (nth i (f_internet_service f) EmptyString)
                           (nth i (f_online_security f) EmptyString)
                           (nth i (f_monthly_charges f) 0)))
    as [R0 R1]; [lra|].
  split; [exact R0|]. split; [exact R1|].
  apply Qabs_Qle_condition.
  match goal with
  | |- context [Qmin (Qmax ?x 0) _] =>
      assert (E : clip1 0 (9 # 10)
                    (churn_prob1 (nth i (f_contract f) EmptyString)
                                 (nth i (f_internet_service f) EmptyString)
                                 (nth i (f_online_security f) EmptyString)
                                 (nth i (f_monthly_charges f) 0))
                  == Qmin (Qmax x 0) (9 # 10))
  end.
  { apply clip1_min_max. unfold churn_prob1, indicator.
    destruct (String.eqb _ "Month-to-month"), (String.eqb _ "Fiber optic"),
      (String.eqb _ "No"); ring. }
  rewrite E. split; lra.
Qed.

(** The incoming state of the global generator is overwritten before
    the first draw. *)
Lemma generate_data_ignores_state (num_samples : nat) (g1 g2 : G) :
  generate_data num_samples g1 = generate_data num_samples g2.
Proof.
  etransitivity; [apply generate_data_unfold|].
  symmetry. apply generate_data_unfold.
Qed.

(** C7.  Two runs with the same sample count return the same data
    frame, column by column and row by row, whatever state the
    global generator was in when each run started. *)
Theorem generate_data_deterministic (num_samples : nat) (g1 g2 : G) :
  fst (generate_data num_samples g1) = fst (generate_data num_samples g2).
Proof.
  rewrite (generate_data_ignores_state num_samples g1 g2). reflexivity.
Qed.

(** C9.  The result of [generate_data] is a function of the sample
    count alone: the seed is set inside, so the incoming state of the
    global generator is never read, and a call made right after
    another one, on the state the first left behind, returns the same
    data frame again and leaves the same state. *)
Theorem generate_data_function_of_size_only :
  exists run : nat -> option DataFrame * G,
    (forall num_samples g, generate_data num_samples g = run num_samples) /\
    (forall num_samples g,
        let (d1, g') := generate_data num_samples g in
        generate_data num_samples g' = (d1, g')).
Proof.
  exists (fun n => generate_data n (seed 0)).
  split.
  - intros n g. apply generate_data_ignores_state.
  - intros n g.
    destruct (generate_data n g) as [d1 g'] eqn:E.
    rewrite <- E. apply generate_data_ignores_state.
Qed.

End GeneratorProperties.

(** ** Facts about the scikit-learn fragment *)

Section SklearnFacts.
Import Pandas Numpy Sklearn.
Local Open Scope Q_scope.

Lemma insert_sorted_length {A} (leb : A -> A -> bool) (x : A) (l : list A) :
  List.length (insert_sorted leb x l) = S (List.length l).
Proof.
  induction l as [|y rest IH]; simpl; [reflexivity|].
  destruct (leb x y); simpl; congruence.
Qed.

Lemma sort_length {A} (leb : A -> A -> bool) (l : list A) :
  List.length (sort leb l) = List.length l.
Proof.
  induction l as [|y rest IH]; simpl; [reflexivity|].
  rewrite insert_sorted_length. congruence.
Qed.

(** A value is known to a fitted column exactly when the training
    column shows it. *)
Lemma known_fitted (col : list string) (v : string) :
  known (sort String.leb (unique string_dec col)) v = true <-> In v col.
Proof.
  unfold known. rewrite existsb_exists. split.
  - intros (c & Hc & E). apply String.eqb_eq in E. subst c.
    rewrite sort_In, unique_In in Hc. exact Hc.
  - intros Hv. exists v. rewrite sort_In, unique_In.
    split; [exact Hv | apply String.eqb_refl].
Qed.

(** Under [Ignore] a cell always encodes, to one column per
    category, all of them zero when the value is not a category. *)
Lemma encode_cell_ignore (cats : list string) (v : string) :
  exists b,
    encode_cell Ignore cats v = Returned b /\
    List.length b = List.length cats /\
    (known cats v = false -> Forall (fun x => x = 0) b).
Proof.
  unfold encode_cell. destruct (known cats v).
  - eexists. split; [reflexivity|]. rewrite length_map.
    split; [reflexivity | discriminate].
  - eexists. split; [reflexivity|]. rewrite length_map.
    split; [reflexivity|]. intros _.
    apply Forall_forall. intros x Hx. apply in_map_iff in Hx.
    destruct Hx as (c & <- & _). reflexivity.
Qed.

(** Under [Error] an unknown value raises. *)
Lemma encode_cell_error (cats : list string) (v : string) :
  known cats v = false -> encode_cell Error cats v = Raised ValueError.
Proof. intros E. unfold encode_cell. rewrite E. reflexivity. Qed.

Lemma vsum_map2_plus (a b : list Q) :
  List.length a = List.length b ->
  vsum (map2 Qplus a b) == vsum a + vsum b.
Proof.
  revert b; induction a as [|x a IH]; intros [|y b] E; simpl in *;
    try discriminate; [lra|].
  rewrite IH by congruence. lra.
Qed.

Lemma vsum_map_div (v : list Q) (n : Q) :
  vsum (map (fun p => p / n) v) == vsum v / n.
Proof.
  induction v as [|x v IH]; simpl.
  - unfold Qdiv. lra.
  - rewrite IH. unfold Qdiv. ring.
Qed.

Lemma vsum_repeat_zero (k : nat) : vsum (repeat 0 k) == 0.
Proof. induction k as [|k IH]; simpl; [lra | rewrite IH; lra]. Qed.

Lemma Forall_nonneg_map2_plus (a b : list Q) :
  Forall (fun w => 0 <= w) a -> Forall (fun w => 0 <= w) b ->
  Forall (fun w => 0 <= w) (map2 Qplus a b).
Proof.
  intros Ha; revert b; induction Ha as [|x a Hx Ha IH]; intros b Hb;
    simpl; [constructor|].
  destruct Hb as [|y b Hy Hb]; [constructor|].
  constructor; [lra | apply IH, Hb].
Qed.

Lemma Forall_nonneg_map_div (v : list Q) (n : Q) :
  0 < n -> Forall (fun w => 0 <= w) v ->
  Forall (fun w => 0 <= w) (map (fun p => p / n) v).
Proof.
  intros Hn Hv. induction Hv as [|x v Hx Hv IH]; simpl; constructor.
  - unfold Qdiv. apply Qmult_le_0_compat; [exact Hx|].
    apply Qlt_le_weak, Qinv_lt_0_compat, Hn.
  - exact IH.
Qed.

(** A fitted tree answers with a probability vector over the [k]
    classes. *)
Lemma tree_predict_proba_spec (k : nat) (t : tree) (x : list Q) :
  fitted_tree k t ->
  List.length (tree_predict_proba t x) = k /\
  vsum (tree_predict_proba t x) == 1 /\
  Forall (fun w => 0 <= w) (tree_predict_proba t x).
Proof.
  unfold tree_predict_proba.
  induction t as [value | feature threshold l IHl r IHr]; simpl.
  - intros (Hlen & Hnn & Hpos).
    assert (Hz : Qeq_bool (vsum value) 0 = false).
    { destruct (Qeq_bool (vsum value) 0) eqn:E; [|reflexivity].
      apply Qeq_bool_iff in E. lra. }
    rewrite Hz. rewrite length_map. split; [exact Hlen|]. split.
    + rewrite vsum_map_div. field. lra.
    + apply Forall_nonneg_map_div; assumption.
  - intros [Hl Hr].
    destruct (Qle_bool (nth feature x 0) threshold); auto.
Qed.

Lemma sum_trees_spec (k : nat) (x : list Q) (ts : list tree) (acc : list Q) :
  Forall (fitted_tree k) ts ->
  List.length acc = k ->
  Forall (fun w => 0 <= w) acc ->
  let total :=
    fold_left (fun a e => map2 Qplus a (tree_predict_proba e x)) ts acc in
  List.length total = k /\
  vsum total == vsum acc + inject_Z (Z.of_nat (List.length ts)) /\
  Forall (fun w => 0 <= w) total.
Proof.
  intros Hts; revert acc; induction Hts as [|t ts Ht Hts IH];
    intros acc Hlen Hnn; simpl.
  - repeat split; [assumption | | assumption].
    change (inject_Z (Z.of_nat 0)) with 0. ring.
  - destruct (tree_predict_proba_spec k t x Ht) as (Lt & St & Nt).
    destruct (IH (map2 Qplus acc (tree_predict_proba t x))) as (L & S' & N).
    + rewrite map2_length; congruence.
    + apply Forall_nonneg_map2_plus; assumption.
    + repeat split; [exact L | | exact N].
      rewrite S', vsum_map2_plus, St by congruence.
      rewrite Zpos_P_of_succ_nat, <- Z.add_1_r, inject_Z_plus.
      change (inject_Z 1) with 1. ring.
Qed.

(** A forest of fitted trees over the classes it knows, asked about
    a sample of its width, answers with a probability vector. *)
Lemma forest_predict_proba_spec (rf : RandomForestClassifier) (x : list Q) :
  List.length x = n_features_in_ rf ->
  estimators_ rf <> [] ->
  Forall (fitted_tree (List.length (classes_ rf))) (estimators_ rf) ->
  exists proba,
    forest_predict_proba rf x = Returned proba /\
    List.length proba = List.length (classes_ rf) /\
    vsum proba == 1 /\
    Forall (fun w => 0 <= w) proba.
Proof.
  intros Hx Hne Hts. unfold forest_predict_proba.
  rewrite Hx, Nat.eqb_refl.
  destruct (sum_trees_spec (List.length (classes_ rf)) x (estimators_ rf)
              (repeat 0 (List.length (classes_ rf))) Hts)
    as (L & S' & N).
  { apply repeat_length. }
  { apply Forall_forall. intros w Hw. apply repeat_spec in Hw. subst. lra. }
  assert (Hn : 0 < inject_Z (Z.of_nat (List.length (estimators_ rf)))).
  { destruct (estimators_ rf); [congruence|].
    change 0 with (inject_Z 0). rewrite <- Zlt_Qlt.
    simpl List.length. lia. }
  eexists. split; [reflexivity|].
  rewrite length_map. split; [exact L|]. split.
  - rewrite vsum_map_div, S', vsum_repeat_zero. field. lra.
  - apply Forall_nonneg_map_div; assumption.
Qed.

Lemma argmax_from_bound (v : list Q) (best_i i : nat) (best : Q) :
  (best_i < i)%nat -> (argmax_from best_i best i v < i + List.length v)%nat.
Proof.
  revert best_i i best; induction v as [|x rest IH]; intros bi i b Hlt; simpl.
  - lia.
  - destruct (Qlt_le_dec b x).
    + specialize (IH i (S i) x). lia.
    + specialize (IH bi (S i) b). lia.
Qed.

(** The label of a forest is one of its classes. *)
Lemma forest_predict_spec (rf : RandomForestClassifier) (x : list Q) :
  List.length x = n_features_in_ rf ->
  estimators_ rf <> [] ->
  classes_ rf <> [] ->
  Forall (fitted_tree (List.length (classes_ rf))) (estimators_ rf) ->
  exists label,
    forest_predict rf x = Returned label /\ In label (classes_ rf).
Proof.
  intros Hx Hne Hcl Hts.
  destruct (forest_predict_proba_spec rf x Hx Hne Hts) as (p & Ep & Lp & _).
  unfold forest_predict. rewrite Ep. simpl.
  destruct p as [|p0 rest].
  { destruct (classes_ rf); [congruence | discriminate]. }
  simpl. unfold take.
  pose proof (argmax_from_bound rest 0 1 p0 Nat.lt_0_1) as Hb.
  simpl in Lp.
  destruct (nth_error (classes_ rf) (argmax_from 0 p0 1 rest)) as [c|] eqn:E.
  - exists c. split; [reflexivity|]. eapply nth_error_In, E.
  - apply nth_error_None in E. lia.
Qed.

End SklearnFacts.

(** ** Properties of the churn classifier pipeline at inference *)

Section ChurnModelProperties.
Import Pandas Numpy Sklearn ChurnModel.
Local Open Scope Q_scope.

(** The encoder of the fitted pipeline never raises: each categorical
    cell becomes a block as wide as the number of distinct training
    values of its column, all zero when the training column does not
    show the value. *)
Lemma fitted_transform (X_train : list Input) (row : Input) :
  exists b1 b2 b3,
    ColumnTransformer_transform (fit_preprocessor X_train) row =
      Returned (numeric_features row ++ b1 ++ b2 ++ b3) /\
    List.length (numeric_features row ++ b1 ++ b2 ++ b3) =
      encoded_width (fit_preprocessor X_train) /\
    List.length b1 = nunique string_dec (map contract X_train) /\
    List.length b2 = nunique string_dec (map internet_service X_train) /\
    List.length b3 = nunique string_dec (map online_security X_train) /\
    (~ In (contract row) (map contract X_train) ->
     Forall (fun x => x = 0) b1) /\
    (~ In (internet_service row) (map internet_service X_train) ->
     Forall (fun x => x = 0) b2) /\
    (~ In (online_security row) (map online_security X_train) ->
     Forall (fun x => x = 0) b3).
Proof.
  unfold ColumnTransformer_transform, OneHotEncoder_transform,
    fit_preprocessor, OneHotEncoder_fit, encoded_width, categorical_features.
  cbn [handle_unknown categories_ map encode_row List.concat].
  set (c1 := sort String.leb (unique string_dec (map contract X_train))).
  set (c2 := sort String.leb
                  (unique string_dec (map internet_service X_train))).
  set (c3 := sort String.leb
                  (unique string_dec (map online_security X_train))).
  destruct (encode_cell_ignore c1 (contract row)) as (b1 & E1 & L1 & Z1).
  destruct (encode_cell_ignore c2 (internet_service row))
    as (b2 & E2 & L2 & Z2).
  destruct (encode_cell_ignore c3 (online_security row))
    as (b3 & E3 & L3 & Z3).
  exists b1, b2, b3. rewrite E1, E2, E3. cbn [and_then].
  rewrite app_nil_r.
  split; [reflexivity|]. split.
  { rewrite !length_app. simpl. lia. }
  unfold nunique. subst c1 c2 c3. rewrite sort_length in L1, L2, L3.
  repeat split; try assumption.
  - intros Hn. apply Z1.
    destruct (known _ (contract row)) eqn:K; [|reflexivity].
    apply known_fitted in K. contradiction.
  - intros Hn. apply Z2.
    destruct (known _ (internet_service row)) eqn:K; [|reflexivity].
    apply known_fitted in K. contradiction.
  - intros Hn. apply Z3.
    destruct (known _ (online_security row)) eqn:K; [|reflexivity].
    apply known_fitted in K. contradiction.
Qed.

(** With [handle_unknown='error'] in place of ['ignore'] the same
    call raises on an unseen contract. *)
Lemma error_policy_raises (X_train : list Input) (row : Input) :
  ~ In (contract row) (map contract X_train) ->
  ColumnTransformer_transform
    (OneHotEncoder_fit Error
       [map contract X_train; map internet_service X_train;
        map online_security X_train]) row = Raised ValueError.
Proof.
  intros Hn.
  unfold ColumnTransformer_transform, OneHotEncoder_transform,
    OneHotEncoder_fit, categorical_features.
  cbn [handle_unknown categories_ map encode_row].
  rewrite encode_cell_error; [reflexivity|].
  destruct (known _ (contract row)) eqn:K; [|reflexivity].
  apply known_fitted in K. contradiction.
Qed.

Lemma toy_model_fitted : fitted toy_train toy_model.
Proof.
  unfold fitted. split; [reflexivity|]. split; [reflexivity|].
  split; [reflexivity|]. split; [discriminate|].
  repeat constructor; simpl; unfold Qle, Qlt; simpl; lia.
Qed.

End ChurnModelProperties.

(* ================================================================== *)
(** * Part III: further properties *)
(* ================================================================== *)

(** ** The shape of the RFM frame *)

Section RFMShape.
Import Pandas RFM RFMReference.

Lemma insert_sorted_lt (x : Z) (l : list Z) :
  StronglySorted Z.lt l -> ~ In x l ->
  StronglySorted Z.lt (insert_sorted Z.leb x l).
Proof.
  induction l as [|y rest IH]; simpl; intros Hs Hx.
  - repeat constructor.
  - inversion Hs as [|? ? Hrest Hall]; subst.
    destruct (Z.leb x y) eqn:E.
    + apply Z.leb_le in E. assert (x < y) by lia.
      constructor; [assumption|]. constructor; [assumption|].
      eapply Forall_impl; [|exact Hall]. simpl; intros; lia.
    + apply Z.leb_gt in E. constructor.
      * apply IH; tauto.
      * apply Forall_forall. intros z Hz.
        apply insert_sorted_In in Hz. destruct Hz as [->|Hz]; [assumption|].
        rewrite Forall_forall in Hall. auto.
Qed.

Lemma sort_lt (l : list Z) : NoDup l -> StronglySorted Z.lt (sort Z.leb l).
Proof.
  induction l as [|y rest IH]; simpl; intros Hnd; [constructor|].
  inversion Hnd; subst.
  apply insert_sorted_lt; [auto|]. rewrite sort_In. assumption.
Qed.

Lemma filter_none {A} (f : A -> bool) (l : list A) :
  (forall x, In x l -> f x = false) -> filter f l = [].
Proof.
  induction l as [|a l IH]; simpl; intros H; [reflexivity|].
  rewrite (H a) by tauto. apply IH. intros x Hx. apply H. tauto.
Qed.

(** In a frame with distinct keys the rows that match a key of the
    frame are that one row. *)
Lemma filter_unique_key {A B} (b : Z * A -> B) (gs : list (Z * A))
      (l : Z * A) :
  NoDup (map fst gs) -> In l gs ->
  filter (fun r => Z.eqb (fst r) (fst l)) (map (fun g => (fst g, b g)) gs)
  = [(fst l, b l)].
Proof.
  induction gs as [|g rest IH]; simpl; intros Hnd Hin; [contradiction|].
  inversion Hnd as [|? ? Hg Hrest]; subst.
  destruct Hin as [->|Hin].
  - rewrite Z.eqb_refl. f_equal.
    apply filter_none.
    intros r Hr. apply in_map_iff in Hr. destruct Hr as (g & <- & Hg').
    simpl. apply Z.eqb_neq. intros E. apply Hg. rewrite <- E.
    apply in_map, Hg'.
  - destruct (Z.eqb (fst g) (fst l)) eqn:E.
    + apply Z.eqb_eq in E. exfalso. apply Hg. rewrite E. apply in_map, Hin.
    + apply IH; assumption.
Qed.

Lemma merge_same_keys {A B C} (a : Z * A -> B) (b : Z * A -> C)
      (gs ls : list (Z * A)) :
  NoDup (map fst gs) -> incl ls gs ->
  merge (map (fun g => (fst g, a g)) ls) (map (fun g => (fst g, b g)) gs)
  = map (fun g => (fst g, (a g, b g))) ls.
Proof.
  intros Hnd. induction ls as [|l rest IH]; intros Hincl; [reflexivity|].
  unfold merge in *. simpl.
  rewrite (filter_unique_key b gs l Hnd) by (apply Hincl; left; reflexivity).
  simpl. f_equal. apply IH. intros x Hx. apply Hincl. right. exact Hx.
Qed.

(** The merge joins every group with itself: the output frame has one
    row per group, in the order of the groups. *)
Lemma rfm_of_rows_map (data : list Row) :
  rfm_of_rows data =
  map (fun g =>
         let x := snd g in
         let dates := map (fun r => InvoiceDate (txn r)) x in
         mkCustomer (fst g)
           (days (timestamp_sub (latest_date data) (series_max dates)))
           (nunique invoice_eq_dec (map (fun r => Invoice (txn r)) x))
           (sum_Q (map TotalPrice x))
           (series_min dates)
           (days (timestamp_sub (latest_date data) (series_min dates))))
      (groupby data).
Proof.
  unfold rfm_of_rows, rfm_agg, customer_first_purchase.
  rewrite (merge_same_keys
             (fun g => (days (timestamp_sub (latest_date data)
                          (series_max (map (fun r => InvoiceDate (txn r))
                                           (snd g)))),
                        nunique invoice_eq_dec
                                (map (fun r => Invoice (txn r)) (snd g)),
                        sum_Q (map TotalPrice (snd g))))
             (fun g => series_min (map (fun r => InvoiceDate (txn r)) (snd g)))
             (groupby data) (groupby data)
             (groupby_keys_NoDup data) (incl_refl _)).
  rewrite map_map. reflexivity.
Qed.

Lemma rfm_customer_ids (data : list Row) :
  map customer_id (rfm_of_rows data)
  = sort Z.leb (unique Z.eq_dec (customer_keys data)).
Proof.
  rewrite rfm_of_rows_map, map_map. simpl.
  unfold groupby. rewrite map_map. simpl. apply map_id.
Qed.

(** X1.  The output frame has exactly one row per customer that has a
    kept row, and its rows are in strictly increasing order of customer
    id. *)
Theorem rfm_one_row_per_customer (data : list Transaction) :
  StronglySorted Z.lt (map customer_id (rfm_features data)) /\
  NoDup (map customer_id (rfm_features data)) /\
  (forall c, In c (map customer_id (rfm_features data)) <->
             rows_of data c <> []).
Proof.
  unfold rfm_features. rewrite rfm_customer_ids.
  split; [apply sort_lt, unique_NoDup|].
  split; [apply sort_NoDup, unique_NoDup|].
  intros c. rewrite sort_In, unique_In, customer_keys_In. split.
  - intros (row & Hrow & Hc) E.
    assert (Ht : In (txn row) (rows_of data c)).
    { rewrite <- preprocess_group. apply in_map, filter_In.
      split; [assumption | apply has_customer_true, Hc]. }
    rewrite E in Ht. exact Ht.
  - intros Hne. rewrite <- preprocess_group in Hne.
    destruct (filter (has_customer c) (preprocess data)) as [|row rest] eqn:E;
      [contradiction|].
    assert (Hin : In row (filter (has_customer c) (preprocess data)))
      by (rewrite E; left; reflexivity).
    apply filter_In in Hin. destruct Hin as [Hin Hc].
    exists row. split; [assumption | apply has_customer_true, Hc].
Qed.

(** X3.  For every customer the recency is at most the tenure: the
    last purchase is never older than the first. *)
Theorem recency_le_tenure (data : list Transaction) (r : Customer) :
  In r (rfm_features data) ->
  exists a b, Recency r = Some a /\ Tenure r = Some b /\ 0 <= a /\ a <= b.
Proof.
  intros Hr.
  destruct (recency_spec _ _ Hr) as (l & m & El & Em & Hml & Hmax & Hrec).
  destruct (tenure_spec _ _ Hr)
    as (l' & f & El' & _ & Hfl & (t & Ht & Ef) & _ & Hten).
  assert (l' = l) by congruence. subst l'.
  specialize (Hmax t Ht). rewrite Ef in Hmax.
  exists ((l - m) / NS_PER_DAY), ((l - f) / NS_PER_DAY).
  split; [assumption|]. split; [assumption|].
  split; [apply days_nonneg; lia|].
  apply Z.div_le_mono; [reflexivity | lia].
Qed.

Lemma recency_le_tenure_scenario1 :
  let r := mkCustomer 1 (Some 3) 3 (134 # 4) (Some 0) (Some 12) in
  In r (rfm_features scenario1) /\
  exists a b, Recency r = Some a /\ Tenure r = Some b /\ 0 <= a /\ a <= b.
Proof.
  cbv zeta.
  assert (Hin : In (mkCustomer 1 (Some 3) 3 (134 # 4) (Some 0) (Some 12))
                   (rfm_features scenario1))
    by (vm_compute; left; reflexivity).
  split; [exact Hin|].
  exact (recency_le_tenure scenario1 _ Hin).
Defined.

(** X4.  Every customer of the output has at least one invoice, and
    never more invoices than kept rows. *)
Theorem frequency_bounds (data : list Transaction) (r : Customer) :
  In r (rfm_features data) ->
  (1 <= Frequency r <= List.length (rows_of data (customer_id r)))%nat.
Proof.
  intros Hr. apply rfm_features_In in Hr.
  destruct Hr as (Hne & _ & -> & _). split.
  - destruct (rows_of data (customer_id r)) as [|t ts]; [congruence|].
    unfold nunique, unique. simpl. lia.
  - rewrite <- (length_map Invoice). apply nunique_le_length.
Qed.

Lemma frequency_bounds_scenario1 :
  let r := mkCustomer 1 (Some 3) 3 (134 # 4) (Some 0) (Some 12) in
  In r (rfm_features scenario1) /\
  (1 <= Frequency r <= List.length (rows_of scenario1 (customer_id r)))%nat.
Proof.
  cbv zeta.
  assert (Hin : In (mkCustomer 1 (Some 3) 3 (134 # 4) (Some 0) (Some 12))
                   (rfm_features scenario1))
    by (vm_compute; left; reflexivity).
  split; [exact Hin|].
  exact (frequency_bounds scenario1 _ Hin).
Defined.

End RFMShape.

(** ** The order of the spreadsheet rows *)

Section RFMRowOrder.
Import Pandas RFM RFMReference.

Lemma Permutation_filter {A} (f : A -> bool) (l l' : list A) :
  Permutation l l' -> Permutation (filter f l) (filter f l').
Proof.
  induction 1 as [|x l l' _ IH|x y l|l l' l'' _ IH1 _ IH2]; simpl.
  - constructor.
  - destruct (f x); [constructor|]; exact IH.
  - destruct (f x), (f y); try reflexivity. apply perm_swap.
  - etransitivity; eassumption.
Qed.

Lemma series_max_Permutation (xs ys : list Z) :
  Permutation xs ys -> series_max xs = series_max ys.
Proof.
  intros Hp. destruct xs as [|x xs'] eqn:Ex.
  - apply Permutation_nil in Hp. subst. reflexivity.
  - rewrite <- Ex in *.
    assert (Hx : xs <> []) by (rewrite Ex; discriminate).
    assert (Hy : ys <> []).
    { intros ->. apply Permutation_sym, Permutation_nil in Hp. contradiction. }
    destruct (series_max_spec xs Hx) as (m & -> & Hm & Hall).
    destruct (series_max_spec ys Hy) as (m' & -> & Hm' & Hall').
    f_equal. apply Z.le_antisymm.
    + apply Hall'. eapply Permutation_in; eassumption.
    + apply Hall. eapply Permutation_in; [apply Permutation_sym|]; eassumption.
Qed.

Lemma series_min_Permutation (xs ys : list Z) :
  Permutation xs ys -> series_min xs = series_min ys.
Proof.
  intros Hp. destruct xs as [|x xs'] eqn:Ex.
  - apply Permutation_nil in Hp. subst. reflexivity.
  - rewrite <- Ex in *.
    assert (Hx : xs <> []) by (rewrite Ex; discriminate).
    assert (Hy : ys <> []).
    { intros ->. apply Permutation_sym, Permutation_nil in Hp. contradiction. }
    destruct (series_min_spec xs Hx) as (m & -> & Hm & Hall).
    destruct (series_min_spec ys Hy) as (m' & -> & Hm' & Hall').
    f_equal. apply Z.le_antisymm.
    + apply Hall. eapply Permutation_in; [apply Permutation_sym|]; eassumption.
    + apply Hall'. eapply Permutation_in; eassumption.
Qed.

Lemma nunique_Permutation {A} (eq_dec : forall a b : A, {a = b} + {a <> b})
      (xs ys : list A) :
  Permutation xs ys -> nunique eq_dec xs = nunique eq_dec ys.
Proof.
  intros Hp. unfold nunique. apply Permutation_length.
  apply NoDup_Permutation; try apply unique_NoDup.
  intros x. rewrite !unique_In. split; apply Permutation_in;
    [|apply Permutation_sym]; assumption.
Qed.

(** Strictly increasing lists with the same members are equal. *)
Lemma sorted_lt_unique (l l' : list Z) :
  StronglySorted Z.lt l -> StronglySorted Z.lt l' ->
  (forall x, In x l <-> In x l') -> l = l'.
Proof.
  intros Hs; revert l'; induction Hs as [|a l Hs IH Ha];
    intros l' Hs' Hmem.
  - destruct l' as [|b l']; [reflexivity|].
    exfalso. apply (proj2 (Hmem b)). left; reflexivity.
  - destruct Hs' as [|b l' Hs' Hb].
    + exfalso. apply (proj1 (Hmem a)). left; reflexivity.
    + rewrite Forall_forall in Ha, Hb.
      assert (a = b).
      { destruct (proj1 (Hmem a) (or_introl eq_refl)) as [E|Hin];
          [congruence|].
        destruct (proj2 (Hmem b) (or_introl eq_refl)) as [E|Hin'];
          [congruence|].
        specialize (Ha b Hin'). specialize (Hb a Hin). lia. }
      subst b. f_equal. apply IH; [assumption|].
      intros x. split; intros Hx.
      * destruct (proj1 (Hmem x) (or_intror Hx)) as [E|Hin]; [|assumption].
        specialize (Ha x Hx). lia.
      * destruct (proj2 (Hmem x) (or_intror Hx)) as [E|Hin]; [|assumption].
        specialize (Hb x Hx). lia.
Qed.

Lemma Forall2_map_same {A B} (R : B -> B -> Prop) (f g : A -> B)
      (l : list A) :
  (forall x, In x l -> R (f x) (g x)) -> Forall2 R (map f l) (map g l).
Proof.
  induction l as [|a l IH]; intros H; simpl; constructor.
  - apply H. left; reflexivity.
  - apply IH. intros x Hx. apply H. right; exact Hx.
Qed.

Lemma rfm_of_rows_Permutation (d d' : list Row) :
  Permutation d d' ->
  Forall2 same_but_monetary (rfm_of_rows d) (rfm_of_rows d').
Proof.
  intros Hp. rewrite !rfm_of_rows_map. unfold groupby. rewrite !map_map.
  assert (Hkeys : sort Z.leb (unique Z.eq_dec (customer_keys d))
                  = sort Z.leb (unique Z.eq_dec (customer_keys d'))).
  { apply sorted_lt_unique; try (apply sort_lt, unique_NoDup).
    intros c. rewrite !sort_In, !unique_In, !customer_keys_In.
    split; intros (r & Hr & Hc); exists r; split; try assumption;
      eapply Permutation_in; try eassumption.
    apply Permutation_sym; assumption. }
  rewrite <- Hkeys.
  assert (Hlatest : latest_date d = latest_date d').
  { unfold latest_date. apply series_max_Permutation, Permutation_map, Hp. }
  apply Forall2_map_same. intros c _. cbn [fst snd].
  pose proof (Permutation_filter (has_customer c) d d' Hp) as Hg.
  unfold same_but_monetary. cbn [customer_id Recency Frequency
                                 FirstPurchaseDate Tenure].
  rewrite Hlatest.
  rewrite (series_max_Permutation _ _
             (Permutation_map (fun r => InvoiceDate (txn r)) Hg)).
  rewrite (series_min_Permutation _ _
             (Permutation_map (fun r => InvoiceDate (txn r)) Hg)).
  rewrite (nunique_Permutation invoice_eq_dec _ _
             (Permutation_map (fun r => Invoice (txn r)) Hg)).
  repeat split; reflexivity.
Qed.

(** X6.  The order of the spreadsheet rows does not matter for the
    customers and their dates and counts: two spreadsheets with the
    same rows in another order give the same customers in the same
    order, with the same recency, frequency, first purchase date and
    tenure.  The monetary column is left out of the comparison. *)
Theorem rfm_row_order_irrelevant (data data' : list Transaction) :
  Permutation data data' ->
  Forall2 same_but_monetary (rfm_features data) (rfm_features data').
Proof.
  intros Hp. apply rfm_of_rows_Permutation.
  unfold preprocess, add_total_price, drop_cancelled, dropna_customer.
  apply Permutation_map. do 2 apply Permutation_filter. exact Hp.
Qed.

Lemma rfm_row_order_example :
  Permutation single_purchases (rev single_purchases) /\
  Forall2 same_but_monetary (rfm_features single_purchases)
                            (rfm_features (rev single_purchases)).
Proof.
  assert (Hp : Permutation single_purchases (rev single_purchases))
    by (simpl; apply perm_swap).
  split; [exact Hp|].
  exact (rfm_row_order_irrelevant _ _ Hp).
Defined.

End RFMRowOrder.

(** ** Ranges of the generated churn data *)

Section GeneratorRanges.
Import Numpy ChurnData NumpyContracts.
Local Open Scope Q_scope.

Lemma draws_Forall {G A} (P : A -> Prop) (size : nat) (m : Rand G A) (g : G) :
  (forall g', P (fst (m g'))) -> Forall P (fst (draws size m g)).
Proof.
  intros Hm. revert g; induction size as [|k IH]; intros g; simpl;
    [constructor|].
  unfold bind. specialize (Hm g). destruct (m g) as [x g1].
  specialize (IH g1). destruct (draws k m g1) as [xs g2].
  simpl in *. constructor; assumption.
Qed.

Lemma Forall_map2 {A B C} (P : A -> Prop) (R : B -> Prop) (S : C -> Prop)
      (f : A -> B -> C) (xs : list A) (ys : list B) :
  (forall x y, P x -> R y -> S (f x y)) ->
  Forall P xs -> Forall R ys -> Forall S (map2 f xs ys).
Proof.
  intros Hf Hx. revert ys; induction Hx as [|x xs Px Hx IH]; intros ys Hy;
    simpl; [constructor|].
  destruct Hy as [|y ys Ry Hy]; constructor; auto.
Qed.

(** Rounding to the nearest integer never crosses an integer. *)
Lemma rint_ge (k : Z) (x : Q) : inject_Z k <= x -> (k <= rint x)%Z.
Proof.
  intros Hk.
  assert (Hf : (k <= Qfloor x)%Z).
  { rewrite <- (Qfloor_Z k). apply Qfloor_resp_le, Hk. }
  unfold rint.
  destruct (Qcompare (x - inject_Z (Qfloor x)) (1 # 2));
    [destruct (Z.even (Qfloor x))| |]; lia.
Qed.

Lemma rint_le (k : Z) (x : Q) : x <= inject_Z k -> (rint x <= k)%Z.
Proof.
  intros Hk.
  assert (Hf : (Qfloor x <= k)%Z).
  { rewrite <- (Qfloor_Z k). apply Qfloor_resp_le, Hk. }
  pose proof (Qfloor_le x) as Hlo.
  assert (Hstep : inject_Z (Qfloor x) < x -> (Qfloor x + 1 <= k)%Z).
  { intros Hlt.
    assert (Hq : inject_Z (Qfloor x) < inject_Z k) by lra.
    rewrite <- Zlt_Qlt in Hq. lia. }
  unfold rint.
  destruct (Qcompare (x - inject_Z (Qfloor x)) (1 # 2)) eqn:C.
  - apply Qeq_alt in C.
    destruct (Z.even (Qfloor x)); [lia|]. apply Hstep. lra.
  - lia.
  - apply Qgt_alt in C. apply Hstep. lra.
Qed.

(** Rounding to two decimals stays between bounds that are whole
    cents. *)
Lemma round2_range (lo hi : Z) (x : Q) :
  inject_Z lo / 100 <= x -> x <= inject_Z hi / 100 ->
  inject_Z lo / 100 <= round2 x /\ round2 x <= inject_Z hi / 100.
Proof.
  intros Hlo Hhi. unfold round2.
  assert (E : forall q, q / 100 == q * (1 # 100))
    by (intros; unfold Qdiv; reflexivity).
  rewrite E in Hlo, Hhi.
  assert (H1 : (lo <= rint (x * 100))%Z) by (apply rint_ge; lra).
  assert (H2 : (rint (x * 100) <= hi)%Z) by (apply rint_le; lra).
  rewrite Zle_Qle in H1, H2. rewrite !E. split; lra.
Qed.

Context {G : Type} `{RandomState G}.

Lemma randint_range (low high : Z) (size : nat) (g : G) :
  interval_sampler -> (low < high)%Z ->
  Forall (fun t => (low <= t /\ t < high)%Z) (fst (randint low high size g)).
Proof.
  intros Hs Hlh. unfold randint. apply draws_Forall. intros g'.
  destruct (Hs (high - low - 1)%Z g') as [H0 H1]; [lia|].
  destruct (random_interval (high - low - 1) g') as [r g'']. simpl in *. lia.
Qed.

Lemma uniform_array_range (low high : Q) (size : nat) (g : G) :
  unit_interval_sampler -> low <= high ->
  Forall (fun x => low <= x /\ x <= high)
         (fst (uniform_array low high size g)).
Proof.
  intros Hs Hlh. unfold uniform_array. apply draws_Forall. intros g'.
  apply uniform_range; assumption.
Qed.

Lemma choice_options (a : list string) (size : nat) (g : G) :
  interval_sampler -> a <> [] ->
  Forall (fun s => In s a) (fst (choice a size g)).
Proof.
  intros Hs Ha. unfold choice, bind.
  pose proof (randint_range 0 (Z.of_nat (List.length a)) size g Hs) as Hr.
  destruct (randint 0 (Z.of_nat (List.length a)) size g) as [idx g1].
  simpl in *. apply Forall_forall. intros s Hin.
  apply in_map_iff in Hin. destruct Hin as (i & <- & Hi).
  assert (Hlen : (0 < Z.of_nat (List.length a))%Z).
  { destruct a; [congruence | simpl List.length; lia]. }
  specialize (Hr Hlen). rewrite Forall_forall in Hr. specialize (Hr i Hi).
  apply nth_In. lia.
Qed.

(** The ranges of the drawn features, each under the contract of the
    draws it depends on. *)
Lemma draw_features_ranges (num_samples : nat) (g : G) :
  let f := fst (draw_features num_samples g) in
  (unit_interval_sampler ->
   Forall (fun m => 20 <= m /\ m <= 100) (f_monthly_charges f)) /\
  (interval_sampler ->
   Forall (fun t => (1 <= t /\ t <= 71)%Z) (f_tenure f) /\
   Forall (fun s => In s ["Month-to-month"; "One year"; "Two year"]%string)
          (f_contract f) /\
   Forall (fun s => In s ["DSL"; "Fiber optic"; "No"]%string)
          (f_internet_service f) /\
   Forall (fun s => In s ["Yes"; "No"; "No internet service"]%string)
          (f_online_security f)) /\
  (unit_interval_sampler -> interval_sampler ->
   Forall (fun x => 16 <= x /\ x <= 8520) (f_total_charges f)).
Proof.
  unfold draw_features, bind.
  pose proof (fun Hi => randint_range 1 72 num_samples g Hi eq_refl) as Ht.
  destruct (randint 1 72 num_samples g) as [tenure g1].
  pose proof (uniform_array_range 20 100 num_samples g1) as Hm.
  destruct (uniform_array 20 100 num_samples g1) as [raw g2].
  pose proof (uniform_range (8 # 10) (12 # 10) g2) as Hj.
  destruct (uniform (8 # 10) (12 # 10) g2) as [jitter g3].
  pose proof (choice_options ["Month-to-month"; "One year"; "Two year"]%string
                             num_samples g3) as Hc1.
  destruct (choice ["Month-to-month"; "One year"; "Two year"]%string
                   num_samples g3) as [c1 g4].
  pose proof (choice_options ["DSL"; "Fiber optic"; "No"]%string
                             num_samples g4) as Hc2.
  destruct (choice ["DSL"; "Fiber optic"; "No"]%string num_samples g4)
    as [c2 g5].
  pose proof (choice_options ["Yes"; "No"; "No internet service"]%string
                             num_samples g5) as Hc3.
  destruct (choice ["Yes"; "No"; "No internet service"]%string
                   num_samples g5) as [c3 g6].
  cbn [fst snd ret f_tenure f_monthly_charges f_total_charges f_contract
       f_internet_service f_online_security f_jitter] in *.
  assert (Hm' : unit_interval_sampler ->
                Forall (fun m => 20 <= m /\ m <= 100) (np_round2 raw)).
  { intros Hu. unfold np_round2. apply Forall_forall. intros m Hin.
    apply in_map_iff in Hin. destruct Hin as (x & <- & Hx).
    assert (Hr : 20 <= x /\ x <= 100).
    { specialize (Hm Hu ltac:(lra)). rewrite Forall_forall in Hm. auto. }
    assert (E1 : inject_Z 2000 / 100 == 20) by reflexivity.
    assert (E2 : inject_Z 10000 / 100 == 100) by reflexivity.
    destruct (round2_range 2000 10000 x) as [A B];
      [rewrite E1; lra | rewrite E2; lra |].
    rewrite E1 in A. rewrite E2 in B. tauto. }
  assert (Ht' : interval_sampler ->
                Forall (fun t => (1 <= t /\ t <= 71)%Z) tenure).
  { intros Hi. eapply Forall_impl; [|exact (Ht Hi)]. simpl; intros; lia. }
  split; [exact Hm'|]. split.
  { intros Hi. split; [exact (Ht' Hi)|].
    split; [apply Hc1; [exact Hi | discriminate]|].
    split; [apply Hc2; [exact Hi | discriminate]
           |apply Hc3; [exact Hi | discriminate]]. }
  intros Hu Hi.
  destruct (Hj Hu) as [Hj0 Hj1]; [lra|].
  specialize (Hm' Hu). specialize (Ht' Hi).
  unfold np_round2, mul_scalar, mul.
  apply Forall_forall. intros x Hin.
  apply in_map_iff in Hin. destruct Hin as (y & <- & Hy).
  apply in_map_iff in Hy. destruct Hy as (z & <- & Hz).
  assert (Hprod : Forall (fun p => 20 <= p /\ p <= 7100)
                         (map2 Qmult (map inject_Z tenure) (np_round2 raw))).
  { apply (Forall_map2 (fun t => 1 <= t /\ t <= 71)
                       (fun m => 20 <= m /\ m <= 100)).
    - intros t m [T0 T1] [M0 M1]. split; nra.
    - apply Forall_forall. intros t Hin.
      apply in_map_iff in Hin. destruct Hin as (k & <- & Hk).
      rewrite Forall_forall in Ht'. specialize (Ht' k Hk).
      destruct Ht' as [T0 T1].
      split; [change 1 with (inject_Z 1) | change 71 with (inject_Z 71)];
        rewrite <- Zle_Qle; lia.
    - exact Hm'. }
  rewrite Forall_forall in Hprod. destruct (Hprod z Hz) as [P0 P1].
  assert (E1 : inject_Z 1600 / 100 == 16) by reflexivity.
  assert (E2 : inject_Z 852000 / 100 == 8520) by reflexivity.
  destruct (round2_range 1600 852000 (z * jitter)) as [A B];
    [rewrite E1; nra | rewrite E2; nra |].
  rewrite E1 in A. rewrite E2 in B. tauto.
Qed.

(** The frame [generate_data] returns holds the features drawn from
    the freshly seeded generator, one label per row. *)
Lemma generate_data_columns (num_samples : nat) (g : G) :
  let f := fst (draw_features num_samples (seed 42)) in
  exists df,
    fst (generate_data num_samples g) = Some df /\
    tenure df = f_tenure f /\
    monthly_charges df = f_monthly_charges f /\
    total_charges df = f_total_charges f /\
    contract df = f_contract f /\
    internet_service df = f_internet_service f /\
    online_security df = f_online_security f /\
    List.length (churn df) = num_samples.
Proof.
  rewrite generate_data_unfold.
  pose proof (draw_features_spec num_samples (seed 42)) as Hf.
  destruct (draw_features num_samples (seed 42)) as [f g1].
  cbn [fst] in *.
  destruct Hf as (Ht & Hm & Htot & Hc & Hi & Hs & _ & _).
  pose proof (draw_each_length (binomial1 1) (bernoulli_p f) g1) as Hl.
  fold (binomial 1 (bernoulli_p f) g1) in Hl.
  destruct (binomial 1 (bernoulli_p f) g1) as [labels g2].
  cbn [fst] in *.
  assert (Hp : List.length (bernoulli_p f) = num_samples).
  { unfold bernoulli_p, np_clip. rewrite length_map.
    apply churn_prob_length; assumption. }
  unfold pd_DataFrame.
  rewrite Ht, Hm, Htot, Hc, Hi, Hs, Hl, Hp, Nat.eqb_refl. simpl.
  eexists. split; [reflexivity|]. simpl.
  repeat split; congruence.
Qed.


(** The frame is built and every column has [num_samples] cells. *)
Lemma generate_data_lengths (num_samples : nat) (g : G) :
  exists df,
    fst (generate_data num_samples g) = Some df /\
    List.length (tenure df) = num_samples /\
    List.length (monthly_charges df) = num_samples /\
    List.length (total_charges df) = num_samples /\
    List.length (contract df) = num_samples /\
    List.length (internet_service df) = num_samples /\
    List.length (online_security df) = num_samples /\
    List.length (churn df) = num_samples.
Proof.
  destruct (generate_data_columns num_samples g)
    as (df & E & Ht & Hm & Htot & Hc & Hi & Hs & Hl).
  pose proof (draw_features_spec num_samples (seed 42)) as Hf.
  cbv zeta in Hf. destruct Hf as (L1 & L2 & L3 & L4 & L5 & L6 & _).
  exists df. rewrite Ht, Hm, Htot, Hc, Hi, Hs. tauto.
Qed.

(** X7.  [generate_data(n)] always builds its frame, whatever the
    generator draws: each of the seven columns has exactly [n] cells and
    the label column holds one label per probability handed to the
    draw; for [n = 0] the frame has no rows. *)
Theorem generate_data_shape (num_samples : nat) (g : G) :
  (exists df,
    fst (generate_data num_samples g) = Some df /\
    List.length (tenure df) = num_samples /\
    List.length (monthly_charges df) = num_samples /\
    List.length (total_charges df) = num_samples /\
    List.length (contract df) = num_samples /\
    List.length (internet_service df) = num_samples /\
    List.length (online_security df) = num_samples /\
    List.length (churn df) = num_samples) /\
  fst (generate_data 0 g) = Some (mkDataFrame [] [] [] [] [] [] []).
Proof.
  split; [apply generate_data_lengths|].
  destruct (generate_data_lengths 0 g)
    as (df & E & L1 & L2 & L3 & L4 & L5 & L6 & L7).
  rewrite E. f_equal. destruct df; simpl in *.
  apply length_zero_iff_nil in L1, L2, L3, L4, L5, L6, L7.
  subst. reflexivity.
Qed.

(** X8.  Under the contracts of the generator every generated row has
    a tenure from 1 to 71, a monthly charge from 20 to 100 and a total
    charge from 16 to 8520. *)
Theorem generated_numeric_ranges (num_samples : nat) (g : G) :
  unit_interval_sampler -> interval_sampler ->
  exists df,
    fst (generate_data num_samples g) = Some df /\
    Forall (fun t => (1 <= t /\ t <= 71)%Z) (tenure df) /\
    Forall (fun m => 20 <= m /\ m <= 100) (monthly_charges df) /\
    Forall (fun x => 16 <= x /\ x <= 8520) (total_charges df).
Proof.
  intros Hu Hi.
  destruct (generate_data_columns num_samples g)
    as (df & E & Ht & Hm & Htot & _).
  destruct (draw_features_ranges num_samples (seed 42)) as (R1 & R2 & R3).
  exists df. rewrite Ht, Hm, Htot.
  split; [exact E|]. split; [apply R2, Hi|].
  split; [apply R1, Hu | apply R3; assumption].
Qed.

(** X9.  Under the contract of the integer draw every generated
    categorical cell is one of the three options listed for its
    column. *)
Theorem generated_categories (num_samples : nat) (g : G) :
  interval_sampler ->
  exists df,
    fst (generate_data num_samples g) = Some df /\
    Forall (fun s => In s ["Month-to-month"; "One year"; "Two year"]%string)
           (contract df) /\
    Forall (fun s => In s ["DSL"; "Fiber optic"; "No"]%string)
           (internet_service df) /\
    Forall (fun s => In s ["Yes"; "No"; "No internet service"]%string)
           (online_security df).
Proof.
  intros Hi.
  destruct (generate_data_columns num_samples g)
    as (df & E & _ & _ & _ & Hc & Hn & Hs & _).
  destruct (draw_features_ranges num_samples (seed 42)) as (_ & R2 & _).
  exists df. rewrite Hc, Hn, Hs.
  split; [exact E | apply R2, Hi].
Qed.


End GeneratorRanges.

Section GeneratorRangeExamples.
Import Numpy ChurnData NumpyContracts.
Local Open Scope Q_scope.

Lemma lcg_interval : @interval_sampler Z lcg.
Proof.
  intros bound g Hb.
  change (fst (random_interval bound g))
    with ((lcg_next g) mod (bound + 1))%Z.
  pose proof (Z.mod_pos_bound (lcg_next g) (bound + 1)). lia.
Qed.

Lemma generated_numeric_ranges_lcg :
  @unit_interval_sampler Z lcg /\ @interval_sampler Z lcg /\
  exists df,
    fst (@generate_data Z lcg 3 0%Z) = Some df /\
    Forall (fun t => (1 <= t /\ t <= 71)%Z) (tenure df) /\
    Forall (fun m => 20 <= m /\ m <= 100) (monthly_charges df) /\
    Forall (fun x => 16 <= x /\ x <= 8520) (total_charges df).
Proof.
  split; [exact lcg_unit_interval|]. split; [exact lcg_interval|].
  exact (@generated_numeric_ranges Z lcg 3%nat 0%Z
           lcg_unit_interval lcg_interval).
Defined.

Lemma generated_categories_lcg :
  @interval_sampler Z lcg /\
  exists df,
    fst (@generate_data Z lcg 3 0%Z) = Some df /\
    Forall (fun s => In s ["Month-to-month"; "One year"; "Two year"]%string)
           (contract df) /\
    Forall (fun s => In s ["DSL"; "Fiber optic"; "No"]%string)
           (internet_service df) /\
    Forall (fun s => In s ["Yes"; "No"; "No internet service"]%string)
           (online_security df).
Proof.
  split; [exact lcg_interval|].
  exact (@generated_categories Z lcg 3%nat 0%Z lcg_interval).
Defined.


End GeneratorRangeExamples.

(** ** The jitter of the total charges *)

Section Jitter.
Import Numpy ChurnData NumpyContracts.
Local Open Scope Q_scope.

Context {G : Type} `{RandomState G}.

(** The jitter is the scalar [uniform(0.8, 1.2)] draws on the state
    the two array draws before it leave behind. *)
Lemma draw_features_jitter (num_samples : nat) (g : G) :
  let (_, g1) := randint 1 72 num_samples g in
  let (_, g2) := uniform_array 20 100 num_samples g1 in
  f_jitter (fst (draw_features num_samples g))
  = fst (uniform (8 # 10) (12 # 10) g2).
Proof.
  unfold draw_features, bind.
  destruct (randint 1 72 num_samples g) as [tenure g1].
  destruct (uniform_array 20 100 num_samples g1) as [raw g2].
  destruct (uniform (8 # 10) (12 # 10) g2) as [jitter g3].
  destruct (choice _ num_samples g3) as [c1 g4].
  destruct (choice _ num_samples g4) as [c2 g5].
  destruct (choice _ num_samples g5) as [c3 g6].
  reflexivity.
Qed.

(** C10.  The jitter of the total charges is one scalar: the value
    [uniform(0.8, 1.2)] draws once, after the tenure and monthly charge
    arrays, lies between 0.8 and 1.2 and serves every row.  In each row
    tenure x monthly charge is positive, the total charge is within one
    cent of tenure x monthly charge x that value, and the ratio of the
    total charge to tenure x monthly charge is within 0.0005 of it.
    The bounds leave room for the rounding to two decimals and for
    that of double-precision arithmetic. *)
Theorem total_charges_share_one_jitter (num_samples : nat) (g : G) :
  unit_interval_sampler -> interval_sampler ->
  let (_, g1) := randint 1 72 num_samples (seed 42) in
  let (_, g2) := uniform_array 20 100 num_samples g1 in
  let u := fst (uniform (8 # 10) (12 # 10) g2) in
  (8 # 10) <= u /\ u <= (12 # 10) /\
  exists df : DataFrame,
    fst (generate_data num_samples g) = Some df /\
    forall i, (i < num_samples)%nat ->
      let t := inject_Z (nth i (tenure df) 0%Z) in
      let m := nth i (monthly_charges df) 0 in
      let total := nth i (total_charges df) 0 in
      0 < t * m /\
      Qabs (total - t * m * u) <= (1 # 100) /\
      Qabs (total / (t * m) - u) <= (1 # 2000).
Proof.
  intros Hu Hi.
  pose proof (draw_features_jitter num_samples (seed 42)) as Hj.
  destruct (randint 1 72 num_samples (seed 42)) as [tenure0 g1].
  destruct (uniform_array 20 100 num_samples g1) as [raw0 g2].
  cbv zeta.
  destruct (uniform_range (8 # 10) (12 # 10) g2 Hu) as [Hlo Hhi]; [lra|].
  split; [exact Hlo|]. split; [exact Hhi|].
  destruct (generate_data_columns num_samples g)
    as (df & Hdf & Ht & Hm & Htot & _).
  pose proof (draw_features_spec num_samples (seed 42)) as Hf.
  destruct (draw_features_ranges num_samples (seed 42)) as (Rm & Rt & _).
  specialize (Rm Hu). destruct (Rt Hi) as (Rt' & _).
  set (f := fst (draw_features num_samples (seed 42))) in *.
  cbv zeta in Hf. destruct Hf as (Lt & Lm & _ & _ & _ & _ & Etot & _).
  exists df. split; [exact Hdf|].
  intros i Hlt.
  rewrite Ht, Hm, Htot, Etot, Hj.
  unfold np_round2, mul_scalar, mul.
  rewrite (nth_map_lt _ _ _ _ 0)
    by (rewrite length_map, map2_length; rewrite length_map; lia).
  rewrite (nth_map_lt _ _ _ _ 0)
    by (rewrite map2_length; rewrite length_map; lia).
  rewrite (nth_map2_lt _ _ _ _ _ 0 0) by (rewrite ?length_map; lia).
  rewrite (nth_map_lt _ _ _ _ 0%Z) by lia.
  assert (Ht1 : (1 <= nth i (f_tenure f) 0)%Z).
  { rewrite Forall_forall in Rt'. apply Rt', nth_In. lia. }
  assert (Hm1 : 20 <= nth i (f_monthly_charges f) 0).
  { rewrite Forall_forall in Rm. apply Rm, nth_In. lia. }
  set (t := inject_Z (nth i (f_tenure f) 0%Z)).
  set (m := nth i (f_monthly_charges f) 0) in *.
  set (u := fst (uniform (8 # 10) (12 # 10) g2)) in *.
  assert (Ht2 : 1 <= t).
  { unfold t. change 1 with (inject_Z 1). rewrite <- Zle_Qle. exact Ht1. }
  assert (Hpos : 20 <= t * m) by nra.
  pose proof (round2_error (t * m * u)) as Herr.
  apply Qabs_Qle_condition in Herr. destruct Herr as [E0 E1].
  split; [lra|]. split; [apply Qabs_Qle_condition; split; lra|].
  assert (Hne : ~ t * m == 0) by lra.
  assert (E : round2 (t * m * u) / (t * m) - u
              == (round2 (t * m * u) - t * m * u) * / (t * m))
    by (field; split; intros Hz; apply Hne; rewrite Hz; ring).
  rewrite E.
  assert (Hinv : 0 < / (t * m)) by (apply Qinv_lt_0_compat; lra).
  assert (Hunit : / (t * m) * (t * m) == 1)
    by (field; split; intros Hz; apply Hne; rewrite Hz; ring).
  set (w := / (t * m)) in *.
  set (d := round2 (t * m * u) - t * m * u) in *.
  apply Qabs_Qle_condition. split; nra.
Qed.

End Jitter.

Section JitterExample.
Import Numpy ChurnData NumpyContracts.
Local Open Scope Q_scope.

(** The jitter property on a run of the model with the linear
    congruential generator. *)
Lemma total_charges_share_one_jitter_lcg :
  @unit_interval_sampler Z lcg /\ @interval_sampler Z lcg /\
  let (_, g1) := @randint Z lcg 1 72 3 (@seed Z lcg 42) in
  let (_, g2) := @uniform_array Z lcg 20 100 3 g1 in
  let u := fst (@uniform Z lcg (8 # 10) (12 # 10) g2) in
  (8 # 10) <= u /\ u <= (12 # 10) /\
  exists df : DataFrame,
    fst (@generate_data Z lcg 3 0%Z) = Some df /\
    forall i, (i < 3)%nat ->
      let t := inject_Z (nth i (tenure df) 0%Z) in
      let m := nth i (monthly_charges df) 0 in
      let total := nth i (total_charges df) 0 in
      0 < t * m /\
      Qabs (total - t * m * u) <= (1 # 100) /\
      Qabs (total / (t * m) - u) <= (1 # 2000).
Proof.
  split; [exact lcg_unit_interval|]. split; [exact lcg_interval|].
  exact (@total_charges_share_one_jitter Z lcg 3%nat 0%Z
           lcg_unit_interval lcg_interval).
Defined.

End JitterExample.

(** ** The prediction form *)

Section PredictionProperties.
Import Pandas Numpy Sklearn ChurnModel PredictionPage.
Local Open Scope Q_scope.

(** What the fitted pipeline hands to the classifier and gets back:
    the encoded row has the width of the forest and the forest answers
    with two probabilities that sum to 1. *)
Lemma fitted_predict_proba (X_train : list Input) (model : Pipeline)
      (row : Input) :
  fitted X_train model ->
  exists xt p0 p1,
    ColumnTransformer_transform (preprocessor model) row = Returned xt /\
    forest_predict_proba (classifier model) xt = Returned [p0; p1] /\
    0 <= p0 /\ 0 <= p1 /\ p0 + p1 == 1.
Proof.
  intros (Hpre & Hcl & Hw & Hne & Hts).
  destruct (fitted_transform X_train row)
    as (b1 & b2 & b3 & Et & Lx & _).
  rewrite <- Hpre in Et, Lx. rewrite <- Hw in Lx.
  assert (Hts' : Forall (fitted_tree (List.length (classes_ (classifier model))))
                        (estimators_ (classifier model)))
    by (rewrite Hcl; exact Hts).
  destruct (forest_predict_proba_spec _ _ Lx Hne Hts')
    as (proba & Ep & Lp & Sp & Np).
  rewrite Hcl in Lp.
  destruct proba as [|p0 [|p1 [|p2 rest]]]; try discriminate.
  inversion Np as [|? ? N0 Np']; subst. inversion Np' as [|? ? N1 _]; subst.
  simpl in Sp.
  eexists _, p0, p1. split; [exact Et|]. split; [exact Ep|].
  repeat split; try assumption. lra.
Qed.

(** X11.  The banner of the prediction form quotes the probability of
    the class it announces, and that probability is at least one half:
    high risk is announced exactly when the churn probability exceeds
    the stay probability, and then it is above one half. *)
Theorem banner_quotes_majority_probability
        (X_train : list Input) (model : Pipeline) (row : Input) :
  fitted X_train model ->
  exists p0 p1 b,
    predict_proba model row = Returned [p0; p1] /\
    prediction_result model row = Returned b /\
    ((p0 < p1 /\ predict model row = Returned 1%Z /\ b = HighChurnRisk p1 /\
      (1 # 2) < p1) \/
     (p1 <= p0 /\ predict model row = Returned 0%Z /\ b = LowChurnRisk p0)) /\
    (1 # 2) <= quoted b /\ quoted b <= 1.
Proof.
  intros Hfit.
  destruct (fitted_predict_proba X_train model row Hfit)
    as (xt & p0 & p1 & Et & Ep & N0 & N1 & S).
  destruct Hfit as (_ & Hcl & _).
  assert (Eproba : predict_proba model row = Returned [p0; p1]).
  { unfold predict_proba. rewrite Et. exact Ep. }
  assert (Epred : predict model row =
                  Returned (if Qlt_le_dec p0 p1 then 1%Z else 0%Z)).
  { unfold predict. rewrite Et. cbn [and_then].
    unfold forest_predict. rewrite Ep, Hcl. cbn [and_then argmax argmax_from].
    destruct (Qlt_le_dec p0 p1); reflexivity. }
  unfold prediction_result. rewrite Epred, Eproba. cbn [and_then].
  destruct (Qlt_le_dec p0 p1) as [Hlt|Hle].
  - exists p0, p1, (HighChurnRisk p1).
    split; [reflexivity|]. split; [reflexivity|].
    split; [left; repeat split; try assumption; lra|].
    simpl. split; lra.
  - exists p0, p1, (LowChurnRisk p0).
    split; [reflexivity|]. split; [reflexivity|].
    split; [right; repeat split; assumption|].
    simpl. split; lra.
Qed.

Lemma banner_toy :
  fitted toy_train toy_model /\
  exists p0 p1 b,
    predict_proba toy_model toy_input = Returned [p0; p1] /\
    prediction_result toy_model toy_input = Returned b /\
    ((p0 < p1 /\ predict toy_model toy_input = Returned 1%Z /\
      b = HighChurnRisk p1 /\ (1 # 2) < p1) \/
     (p1 <= p0 /\ predict toy_model toy_input = Returned 0%Z /\
      b = LowChurnRisk p0)) /\
    (1 # 2) <= quoted b /\ quoted b <= 1.
Proof.
  split; [exact toy_model_fitted|].
  exact (banner_quotes_majority_probability toy_train toy_model toy_input
                                             toy_model_fitted).
Defined.

(** A known value lights exactly one indicator of its block. *)
Lemma one_hot_sum (cats : list string) (v : string) :
  NoDup cats -> In v cats ->
  vsum (map (fun c => indicator (String.eqb c v)) cats) == 1.
Proof.
  induction cats as [|c cats IH]; intros Hnd Hin; [contradiction|].
  inversion Hnd as [|? ? Hc Hrest]; subst. simpl.
  destruct Hin as [->|Hin].
  - rewrite String.eqb_refl. simpl.
    assert (Hz : vsum (map (fun c => indicator (String.eqb c v)) cats) == 0).
    { clear IH Hnd Hrest. induction cats as [|d cats IH]; [reflexivity|].
      simpl. destruct (String.eqb d v) eqn:E.
      - apply String.eqb_eq in E. subst. exfalso. apply Hc. left; reflexivity.
      - simpl. rewrite IH; [ring|]. intros H. apply Hc. right; exact H. }
    rewrite Hz. ring.
  - destruct (String.eqb c v) eqn:E.
    + apply String.eqb_eq in E. subst. contradiction.
    + simpl. rewrite IH by assumption. ring.
Qed.

Lemma encode_cell_bits (cats : list string) (v : string) :
  NoDup cats ->
  exists b,
    encode_cell Ignore cats v = Returned b /\
    Forall (fun x => x = 0 \/ x = 1) b /\
    vsum b == (if known cats v then 1 else 0).
Proof.
  intros Hnd. unfold encode_cell. destruct (known cats v) eqn:K.
  - eexists. split; [reflexivity|]. split.
    + apply Forall_forall. intros x Hx. apply in_map_iff in Hx.
      destruct Hx as (c & <- & _). destruct (String.eqb c v); simpl; auto.
    + apply one_hot_sum; [assumption|].
      unfold known in K. apply existsb_exists in K.
      destruct K as (c & Hc & E). apply String.eqb_eq in E. subst. exact Hc.
  - eexists. split; [reflexivity|]. split.
    + apply Forall_forall. intros x Hx. apply in_map_iff in Hx.
      destruct Hx as (c & <- & _). auto.
    + clear. induction cats as [|c cats IH]; simpl; [reflexivity|].
      rewrite IH. ring.
Qed.

(** X12.  The encoder of the fitted pipeline is one-hot: every
    indicator it writes is 0 or 1, and the indicators of a column's
    block sum to 1 when the training rows show the value and to 0
    otherwise, so an encoded row holds as many ones as it has known
    categorical values. *)
Theorem encoding_is_one_hot (X_train : list Input) (row : Input) :
  exists b1 b2 b3,
    ColumnTransformer_transform (fit_preprocessor X_train) row =
      Returned (numeric_features row ++ b1 ++ b2 ++ b3) /\
    Forall (fun x => x = 0 \/ x = 1) (b1 ++ b2 ++ b3) /\
    (In (contract row) (map contract X_train) -> vsum b1 == 1) /\
    (~ In (contract row) (map contract X_train) -> vsum b1 == 0) /\
    (In (internet_service row) (map internet_service X_train) ->
     vsum b2 == 1) /\
    (~ In (internet_service row) (map internet_service X_train) ->
     vsum b2 == 0) /\
    (In (online_security row) (map online_security X_train) ->
     vsum b3 == 1) /\
    (~ In (online_security row) (map online_security X_train) ->
     vsum b3 == 0).
Proof.
  unfold ColumnTransformer_transform, OneHotEncoder_transform,
    fit_preprocessor, OneHotEncoder_fit, categorical_features.
  cbn [handle_unknown categories_ map encode_row].
  set (c1 := sort String.leb (unique string_dec (map contract X_train))).
  set (c2 := sort String.leb
                  (unique string_dec (map internet_service X_train))).
  set (c3 := sort String.leb
                  (unique string_dec (map online_security X_train))).
  destruct (encode_cell_bits c1 (contract row)) as (b1 & E1 & B1 & S1);
    [apply sort_NoDup, unique_NoDup|].
  destruct (encode_cell_bits c2 (internet_service row)) as (b2 & E2 & B2 & S2);
    [apply sort_NoDup, unique_NoDup|].
  destruct (encode_cell_bits c3 (online_security row)) as (b3 & E3 & B3 & S3);
    [apply sort_NoDup, unique_NoDup|].
  exists b1, b2, b3. rewrite E1, E2, E3. cbn [and_then]. rewrite app_nil_r.
  split; [reflexivity|].
  split; [repeat (apply Forall_app; split); assumption|].
  assert (K : forall col v,
             (In v col ->
              known (sort String.leb (unique string_dec col)) v = true) /\
             (~ In v col ->
              known (sort String.leb (unique string_dec col)) v = false)).
  { intros col v. split; intros Hv.
    - apply known_fitted, Hv.
    - destruct (known _ v) eqn:E; [|reflexivity].
      apply known_fitted in E. contradiction. }
  subst c1 c2 c3.
  repeat split; intros Hv.
  - rewrite (proj1 (K _ _) Hv) in S1. exact S1.
  - rewrite (proj2 (K _ _) Hv) in S1. exact S1.
  - rewrite (proj1 (K _ _) Hv) in S2. exact S2.
  - rewrite (proj2 (K _ _) Hv) in S2. exact S2.
  - rewrite (proj1 (K _ _) Hv) in S3. exact S3.
  - rewrite (proj2 (K _ _) Hv) in S3. exact S3.
Qed.

Lemma encode_cell_unknown (cats : list string) (v : string) :
  known cats v = false ->
  encode_cell Ignore cats v = Returned (map (fun _ => 0) cats).
Proof. intros K. unfold encode_cell. rewrite K. reflexivity. Qed.

Lemma encode_cell_same_or_unseen (col : list string) (v v' : string) :
  v = v' \/ (~ In v col /\ ~ In v' col) ->
  encode_cell Ignore (sort String.leb (unique string_dec col)) v =
  encode_cell Ignore (sort String.leb (unique string_dec col)) v'.
Proof.
  intros [->|[Hv Hv']]; [reflexivity|].
  rewrite !encode_cell_unknown; [reflexivity| |].
  - destruct (known _ v') eqn:E; [|reflexivity].
    apply known_fitted in E. contradiction.
  - destruct (known _ v) eqn:E; [|reflexivity].
    apply known_fitted in E. contradiction.
Qed.

(** X13.  Values the training rows never show are indistinguishable to
    the pipeline: two inputs with the same numeric cells whose
    categorical cells are, column by column, either equal or both
    unseen get the same label and the same probabilities. *)
Theorem unseen_values_are_indistinguishable
        (X_train : list Input) (model : Pipeline) (r r' : Input) :
  preprocessor model = fit_preprocessor X_train ->
  numeric_features r = numeric_features r' ->
  (contract r = contract r' \/
   (~ In (contract r) (map contract X_train) /\
    ~ In (contract r') (map contract X_train))) ->
  (internet_service r = internet_service r' \/
   (~ In (internet_service r) (map internet_service X_train) /\
    ~ In (internet_service r') (map internet_service X_train))) ->
  (online_security r = online_security r' \/
   (~ In (online_security r) (map online_security X_train) /\
    ~ In (online_security r') (map online_security X_train))) ->
  predict model r = predict model r' /\
  predict_proba model r = predict_proba model r' /\
  prediction_result model r = prediction_result model r'.
Proof.
  intros Hpre Hnum H1 H2 H3.
  assert (Et : ColumnTransformer_transform (preprocessor model) r =
               ColumnTransformer_transform (preprocessor model) r').
  { rewrite Hpre.
    unfold ColumnTransformer_transform, OneHotEncoder_transform,
      fit_preprocessor, OneHotEncoder_fit, categorical_features.
    cbn [handle_unknown categories_ map encode_row].
    rewrite (encode_cell_same_or_unseen _ _ _ H1),
            (encode_cell_same_or_unseen _ _ _ H2),
            (encode_cell_same_or_unseen _ _ _ H3), Hnum.
    reflexivity. }
  assert (Ep : predict model r = predict model r')
    by (unfold predict; rewrite Et; reflexivity).
  assert (Eq : predict_proba model r = predict_proba model r')
    by (unfold predict_proba; rewrite Et; reflexivity).
  split; [exact Ep|]. split; [exact Eq|].
  unfold prediction_result. rewrite Ep, Eq. reflexivity.
Qed.

Lemma unseen_values_toy :
  preprocessor toy_model = fit_preprocessor toy_train /\
  ~ In (contract toy_input) (map contract toy_train) /\
  contract toy_input <> contract toy_input' /\
  predict toy_model toy_input = predict toy_model toy_input' /\
  predict_proba toy_model toy_input = predict_proba toy_model toy_input' /\
  prediction_result toy_model toy_input = prediction_result toy_model toy_input'.
Proof.
  split; [reflexivity|].
  split; [simpl; intros [E|[E|[]]]; discriminate|].
  split; [discriminate|].
  apply (unseen_values_are_indistinguishable toy_train toy_model
                                             toy_input toy_input').
  - reflexivity.
  - reflexivity.
  - right. split; simpl; intros [E|[E|[]]]; discriminate.
  - left. reflexivity.
  - right. split; simpl; intros [E|[E|[]]]; discriminate.
Defined.

End PredictionProperties.

(** ** The feature names of the model analysis page *)

Section ModelAnalysisProperties.
Import Pandas Numpy Sklearn ChurnModel ModelAnalysis.
Local Open Scope Q_scope.

Lemma append_eqb (p a b : string) :
  String.eqb (p ++ a) (p ++ b) = String.eqb a b.
Proof.
  induction p as [|c p IH]; simpl; [reflexivity|].
  rewrite Ascii.eqb_refl. exact IH.
Qed.

Lemma feature_name_eqb (feature c v : string) :
  String.eqb (feature_name feature c) (feature_name feature v)
  = String.eqb c v.
Proof.
  unfold feature_name. rewrite !append_eqb. reflexivity.
Qed.

Lemma Forall2_map_both {A B C} (R : B -> C -> Prop) (f : A -> B)
      (g : A -> C) (l : list A) :
  (forall x, In x l -> R (f x) (g x)) -> Forall2 R (map f l) (map g l).
Proof.
  induction l as [|a l IH]; intros H; simpl; constructor.
  - apply H. left; reflexivity.
  - apply IH. intros x Hx. apply H. right; exact Hx.
Qed.

(** Within the block of one column, an indicator is 1 exactly under
    the name made of the column and the value of the cell. *)
Lemma block_names_aligned (feature : string) (cats : list string)
      (v : string) :
  exists b,
    encode_cell Ignore cats v = Returned b /\
    Forall2 (fun name x =>
               x = indicator (String.eqb name (feature_name feature v)))
            (map (feature_name feature) cats) b.
Proof.
  unfold encode_cell. destruct (known cats v) eqn:K.
  - eexists. split; [reflexivity|].
    apply Forall2_map_both. intros c _.
    rewrite feature_name_eqb. reflexivity.
  - eexists. split; [reflexivity|].
    apply Forall2_map_both. intros c Hc.
    rewrite feature_name_eqb.
    destruct (String.eqb c v) eqn:E; [|reflexivity].
    apply String.eqb_eq in E. subst c.
    assert (known cats v = true).
    { unfold known. apply existsb_exists. exists v.
      split; [exact Hc | apply String.eqb_refl]. }
    congruence.
Qed.

(** X14.  The feature names of the analysis page line up with the
    columns the pipeline feeds the classifier: there are as many names
    as encoded columns, the three numeric names come first, and an
    indicator column is 1 for a row exactly when its name is the name
    of the column followed by an underscore and the row's value. *)
Theorem feature_names_line_up
        (X_train : list Input) (model : Pipeline) (row : Input) :
  fitted X_train model ->
  exists n1 n2 n3 b1 b2 b3,
    all_features model = Returned (NUMERIC_FEATURES ++ n1 ++ n2 ++ n3) /\
    ColumnTransformer_transform (preprocessor model) row =
      Returned (numeric_features row ++ b1 ++ b2 ++ b3) /\
    Forall2 (fun name x =>
               x = indicator (String.eqb name
                                (feature_name "contract" (contract row))))
            n1 b1 /\
    Forall2 (fun name x =>
               x = indicator (String.eqb name
                                (feature_name "internet_service"
                                              (internet_service row))))
            n2 b2 /\
    Forall2 (fun name x =>
               x = indicator (String.eqb name
                                (feature_name "online_security"
                                              (online_security row))))
            n3 b3 /\
    List.length (NUMERIC_FEATURES ++ n1 ++ n2 ++ n3)
    = n_features_in_ (classifier model).
Proof.
  intros (Hpre & _ & Hw & _).
  rewrite Hw. unfold all_features. rewrite Hpre.
  unfold get_feature_names_out, ColumnTransformer_transform,
    OneHotEncoder_transform, fit_preprocessor, OneHotEncoder_fit,
    categorical_features, encoded_width.
  destruct (list_eq_dec string_dec CATEGORICAL_FEATURES feature_names_in_)
    as [_|Hne]; [|exfalso; apply Hne; reflexivity].
  unfold CATEGORICAL_FEATURES.
  cbn [handle_unknown categories_ map encode_row List.length
       map2 List.concat and_then].
  set (c1 := sort String.leb (unique string_dec (map contract X_train))).
  set (c2 := sort String.leb
                  (unique string_dec (map internet_service X_train))).
  set (c3 := sort String.leb
                  (unique string_dec (map online_security X_train))).
  destruct (block_names_aligned "contract" c1 (contract row))
    as (b1 & E1 & A1).
  destruct (block_names_aligned "internet_service" c2 (internet_service row))
    as (b2 & E2 & A2).
  destruct (block_names_aligned "online_security" c3 (online_security row))
    as (b3 & E3 & A3).
  exists (map (feature_name "contract") c1),
         (map (feature_name "internet_service") c2),
         (map (feature_name "online_security") c3), b1, b2, b3.
  rewrite E1, E2, E3. cbn [and_then]. rewrite !app_nil_r.
  split; [reflexivity|]. split; [reflexivity|].
  split; [exact A1|]. split; [exact A2|]. split; [exact A3|].
  rewrite !length_app, !length_map. simpl. lia.
Qed.

Lemma feature_names_toy :
  fitted toy_train toy_model /\
  exists n1 n2 n3 b1 b2 b3,
    all_features toy_model = Returned (NUMERIC_FEATURES ++ n1 ++ n2 ++ n3) /\
    ColumnTransformer_transform (preprocessor toy_model) toy_input =
      Returned (numeric_features toy_input ++ b1 ++ b2 ++ b3) /\
    Forall2 (fun name x =>
               x = indicator (String.eqb name
                                (feature_name "contract"
                                              (contract toy_input))))
            n1 b1 /\
    Forall2 (fun name x =>
               x = indicator (String.eqb name
                                (feature_name "internet_service"
                                              (internet_service toy_input))))
            n2 b2 /\
    Forall2 (fun name x =>
               x = indicator (String.eqb name
                                (feature_name "online_security"
                                              (online_security toy_input))))
            n3 b3 /\
    List.length (NUMERIC_FEATURES ++ n1 ++ n2 ++ n3)
    = n_features_in_ (classifier toy_model).
Proof.
  split; [exact toy_model_fitted|].
  exact (feature_names_line_up toy_train toy_model toy_input toy_model_fitted).
Defined.

End ModelAnalysisProperties.

(** ** The filters of the data explorer *)

Section DataExplorerProperties.
Import Pandas Numpy ChurnData NumpyContracts DataExplorer.

Lemma select_combine {A B} (m : list bool) (xs : list A) (ys : list B) :
  select m (combine xs ys) = combine (select m xs) (select m ys).
Proof.
  revert xs ys; induction m as [|b m IH]; intros xs ys; [reflexivity|].
  destruct xs as [|x xs]; [reflexivity|].
  destruct ys as [|y ys]; simpl; [rewrite combine_nil; reflexivity|].
  destruct b; simpl; rewrite IH; reflexivity.
Qed.

Lemma select_map_filter {A} (p : A -> bool) (l : list A) :
  select (map p l) l = filter p l.
Proof.
  induction l as [|a l IH]; simpl; [reflexivity|].
  destruct (p a); rewrite IH; reflexivity.
Qed.

Lemma select_length {A} (m : list bool) (col : list A) :
  List.length m = List.length col ->
  List.length (select m col) = List.length (filter (fun b => b) m).
Proof.
  revert col; induction m as [|b m IH]; intros [|x col] E; simpl in *;
    try reflexivity; try discriminate.
  destruct b; simpl; rewrite IH by congruence; reflexivity.
Qed.

Lemma select_none {A} (m : list bool) (col : list A) :
  Forall (fun b => b = false) m -> select m col = [].
Proof.
  intros Hm; revert col; induction Hm as [|b m Hb Hm IH]; intros col;
    [reflexivity|].
  destruct col as [|x col]; [reflexivity|]. subst b. simpl. apply IH.
Qed.

Lemma map2_map {A B C D} (h : B -> C -> D) (f : A -> B) (g : A -> C)
      (l : list A) :
  map2 h (map f l) (map g l) = map (fun x => h (f x) (g x)) l.
Proof. induction l as [|a l IH]; simpl; [reflexivity | rewrite IH; reflexivity]. Qed.

Lemma combine_fst {A B} (l : list A) (l' : list B) :
  List.length l = List.length l' -> map fst (combine l l') = l.
Proof.
  revert l'; induction l as [|a l IH]; intros [|b l'] E; simpl in *;
    try reflexivity; try discriminate.
  f_equal. apply IH. congruence.
Qed.

Lemma combine_snd {A B} (l : list A) (l' : list B) :
  List.length l = List.length l' -> map snd (combine l l') = l'.
Proof.
  revert l'; induction l as [|a l IH]; intros [|b l'] E; simpl in *;
    try reflexivity; try discriminate.
  f_equal. apply IH. congruence.
Qed.

Lemma combine_same_length {A B} (l : list A) (l' : list B) :
  List.length l = List.length l' ->
  List.length (combine l l') = List.length l.
Proof. intros E. rewrite length_combine, E. apply Nat.min_id. Qed.

(** The tenure and contract columns of a rectangular frame, read off
    its rows. *)
Lemma rows_columns (data : DataFrame) :
  rectangular data ->
  tenure data = map fst (rows data) /\
  contract data = map (fun r => fst (snd (snd (snd r)))) (rows data).
Proof.
  intros (Lm & Lt & Lc & Li & Ls & Lch). unfold rows.
  set (r6 := combine (online_security data) (churn data)).
  assert (L6 : List.length r6 = List.length (tenure data))
    by (unfold r6; rewrite combine_same_length; congruence).
  set (r5 := combine (internet_service data) r6).
  assert (L5 : List.length r5 = List.length (tenure data))
    by (unfold r5; rewrite combine_same_length; congruence).
  set (r4 := combine (contract data) r5).
  assert (L4 : List.length r4 = List.length (tenure data))
    by (unfold r4; rewrite combine_same_length; congruence).
  set (r3 := combine (total_charges data) r4).
  assert (L3 : List.length r3 = List.length (tenure data))
    by (unfold r3; rewrite combine_same_length; congruence).
  set (r2 := combine (monthly_charges data) r3).
  assert (L2 : List.length r2 = List.length (tenure data))
    by (unfold r2; rewrite combine_same_length; congruence).
  split.
  - rewrite combine_fst by congruence. reflexivity.
  - rewrite <- (map_map snd (fun r => fst (snd (snd r)))).
    rewrite combine_snd by congruence. unfold r2.
    rewrite <- (map_map snd (fun r => fst (snd r))).
    rewrite combine_snd by congruence. unfold r3.
    rewrite <- (map_map snd fst).
    rewrite combine_snd by congruence. unfold r4.
    rewrite combine_fst by congruence. reflexivity.
Qed.

(** On a rectangular frame the mask of the two filters is the filter
    condition, row by row. *)
Lemma filter_mask_rows (data : DataFrame) (tenure_range : Z * Z)
      (contract_filter : list string) :
  rectangular data ->
  map2 andb
    (map2 andb
       (map (fun t => Z.leb (fst tenure_range) t) (tenure data))
       (map (fun t => Z.leb t (snd tenure_range)) (tenure data)))
    (isin (contract data) contract_filter)
  = map (shown tenure_range contract_filter) (rows data).
Proof.
  intros Hrect. destruct (rows_columns data Hrect) as [Et Ec].
  unfold isin. rewrite Et, Ec, !map_map, !map2_map. reflexivity.
Qed.

(** The rows of the filtered frame. *)
Lemma filtered_rows (data : DataFrame) (tenure_range : Z * Z)
      (contract_filter : list string) :
  rectangular data ->
  rows (filtered_data data tenure_range contract_filter)
  = filter (shown tenure_range contract_filter) (rows data).
Proof.
  intros Hrect. unfold filtered_data.
  rewrite (filter_mask_rows data tenure_range contract_filter Hrect).
  unfold rows at 1, getitem_mask.
  cbn [tenure monthly_charges total_charges contract internet_service
       online_security churn].
  rewrite <- !select_combine. apply select_map_filter.
Qed.

(** X15.  Filtering keeps the columns aligned: on a frame whose
    columns have one length, the rows of the filtered frame are exactly
    the rows whose tenure lies in the chosen range (bounds included)
    and whose contract is among the chosen ones, in their original
    order, and the filtered frame again has columns of one length. *)
Theorem filtered_data_rows (data : DataFrame) (tenure_range : Z * Z)
        (contract_filter : list string) :
  rectangular data ->
  rows (filtered_data data tenure_range contract_filter)
  = filter (shown tenure_range contract_filter) (rows data) /\
  rectangular (filtered_data data tenure_range contract_filter).
Proof.
  intros Hrect. split; [apply filtered_rows, Hrect|].
  unfold filtered_data.
  rewrite (filter_mask_rows data tenure_range contract_filter Hrect).
  set (mask := map (shown tenure_range contract_filter) (rows data)).
  assert (Lmask : List.length mask = List.length (tenure data)).
  { unfold mask. rewrite length_map.
    destruct (rows_columns data Hrect) as [Et _].
    rewrite Et, length_map. reflexivity. }
  destruct Hrect as (Lm & Lt & Lc & Li & Ls & Lch).
  unfold rectangular, getitem_mask.
  cbn [tenure monthly_charges total_charges contract internet_service
       online_security churn].
  rewrite !select_length by congruence. tauto.
Qed.

Lemma toy_frame_rectangular : rectangular toy_frame.
Proof. unfold rectangular. simpl. tauto. Qed.

Lemma filtered_data_rows_toy :
  rectangular toy_frame /\
  rows (filtered_data toy_frame (10, 72) ["One year"; "Two year"]%string)
  = filter (shown (10, 72) ["One year"; "Two year"]%string) (rows toy_frame) /\
  rectangular (filtered_data toy_frame (10, 72)
                             ["One year"; "Two year"]%string).
Proof.
  split; [exact toy_frame_rectangular|].
  exact (filtered_data_rows toy_frame (10, 72)
                            ["One year"; "Two year"]%string
                            toy_frame_rectangular).
Defined.

(** X16.  With no contract type selected, or with a tenure range whose
    lower end is above its upper end, the filtered frame has no
    rows. *)
Theorem filtered_data_empty (data : DataFrame) (tenure_range : Z * Z)
        (contract_filter : list string) :
  contract_filter = [] \/ snd tenure_range < fst tenure_range ->
  filtered_data data tenure_range contract_filter
  = mkDataFrame [] [] [] [] [] [] [].
Proof.
  intros Hempty. unfold filtered_data, getitem_mask.
  set (mask := map2 andb _ _).
  assert (Hmask : Forall (fun b => b = false) mask).
  { unfold mask. rewrite map2_map. destruct Hempty as [->|Hlt].
    - unfold isin.
      apply (Forall_map2 (fun _ => True) (fun b => b = false)).
      + intros x y _ ->. apply andb_false_r.
      + apply Forall_forall. intros; exact I.
      + apply Forall_forall. intros b Hb. apply in_map_iff in Hb.
        destruct Hb as (c & <- & _). reflexivity.
    - apply (Forall_map2 (fun b => b = false) (fun _ => True)).
      + intros x y -> _. reflexivity.
      + apply Forall_forall. intros b Hb. apply in_map_iff in Hb.
        destruct Hb as (t & <- & _).
        destruct (Z.leb (fst tenure_range) t) eqn:E1; [|reflexivity].
        apply Z.leb_le in E1. simpl. apply Z.leb_gt. lia.
      + apply Forall_forall. intros; exact I. }
  rewrite !(select_none mask) by exact Hmask. reflexivity.
Qed.

Lemma filtered_data_empty_toy :
  filtered_data toy_frame (0, 72) [] = mkDataFrame [] [] [] [] [] [] [].
Proof.
  apply (filtered_data_empty toy_frame (0, 72) []). left. reflexivity.
Defined.

Lemma filter_all {A} (p : A -> bool) (l : list A) :
  filter p l = l <-> forall x, In x l -> p x = true.
Proof.
  split.
  - intros E x Hx. rewrite <- E in Hx. apply filter_In in Hx. tauto.
  - intros H. induction l as [|a l IH]; simpl; [reflexivity|].
    rewrite (H a) by (left; reflexivity). f_equal.
    apply IH. intros x Hx. apply H. right; exact Hx.
Qed.

Lemma select_all {A} (m : list bool) (col : list A) :
  Forall (fun b => b = true) m -> List.length m = List.length col ->
  select m col = col.
Proof.
  intros Hm; revert col; induction Hm as [|b m Hb Hm IH]; intros [|x col] E;
    simpl in *; try reflexivity; try discriminate.
  subst b. f_equal. apply IH. congruence.
Qed.

(** A row passes the default filters exactly when its tenure lies
    between 0 and 72: its contract is always among those of the
    frame. *)
Lemma default_shown (data : DataFrame) (row : _) :
  rectangular data -> In row (rows data) ->
  (shown default_tenure_range (default_contract_filter data) row = true
   <-> 0 <= fst row /\ fst row <= 72).
Proof.
  intros Hrect Hrow.
  destruct (rows_columns data Hrect) as [_ Ec].
  unfold shown, default_tenure_range. cbn [fst snd].
  assert (Hc : existsb (String.eqb (fst (snd (snd (snd row)))))
                       (default_contract_filter data) = true).
  { apply existsb_exists. exists (fst (snd (snd (snd row)))).
    split; [|apply String.eqb_refl].
    unfold default_contract_filter. rewrite unique_In, Ec.
    apply (in_map (fun r => fst (snd (snd (snd r))))), Hrow. }
  rewrite Hc, andb_true_r, andb_true_iff, !Z.leb_le. tauto.
Qed.

(** The default filters keep a frame whose tenures lie between 0 and
    72 as it is. *)
Lemma default_filters_keep (data : DataFrame) :
  rectangular data ->
  Forall (fun t => 0 <= t /\ t <= 72) (tenure data) ->
  filtered_data data default_tenure_range (default_contract_filter data)
  = data.
Proof.
  intros Hrect Hall.
  destruct (rows_columns data Hrect) as [Et _].
  unfold filtered_data.
  rewrite (filter_mask_rows data _ _ Hrect).
  set (mask := map _ (rows data)).
  assert (Hmask : Forall (fun b => b = true) mask).
  { unfold mask. apply Forall_forall. intros b Hb.
    apply in_map_iff in Hb. destruct Hb as (row & <- & Hrow).
    apply (default_shown data row Hrect Hrow).
    rewrite Forall_forall in Hall. apply Hall.
    rewrite Et. apply in_map, Hrow. }
  assert (Lmask : List.length mask = List.length (tenure data)).
  { unfold mask. rewrite length_map, Et, length_map. reflexivity. }
  destruct Hrect as (Lm & Lt & Lc & Li & Ls & Lch).
  unfold getitem_mask.
  rewrite !(select_all mask) by (assumption || congruence).
  destruct data; reflexivity.
Qed.

(** X17.  The default filters (tenure 0 to 72, every contract type of
    the frame selected) show a rectangular frame unchanged exactly when
    all its tenures lie between 0 and 72. *)
Theorem default_filters_show_all (data : DataFrame) :
  rectangular data ->
  (filtered_data data default_tenure_range (default_contract_filter data)
   = data
   <-> Forall (fun t => 0 <= t /\ t <= 72) (tenure data)).
Proof.
  intros Hrect. split; [|apply default_filters_keep, Hrect].
  intros E.
  destruct (rows_columns data Hrect) as [Et _].
  pose proof (filtered_rows data default_tenure_range
                (default_contract_filter data) Hrect) as Hrows.
  rewrite E in Hrows. symmetry in Hrows.
  rewrite filter_all in Hrows.
  rewrite Et. apply Forall_forall. intros t Ht.
  apply in_map_iff in Ht. destruct Ht as (row & <- & Hrow).
  apply (default_shown data row Hrect Hrow). auto.
Qed.

Lemma default_filters_toy :
  rectangular toy_frame /\
  (filtered_data toy_frame default_tenure_range
                 (default_contract_filter toy_frame) = toy_frame
   <-> Forall (fun t => 0 <= t /\ t <= 72) (tenure toy_frame)).
Proof.
  split; [exact toy_frame_rectangular|].
  exact (default_filters_show_all toy_frame toy_frame_rectangular).
Defined.

End DataExplorerProperties.

(** ** The explorer on generated data *)

Section ExplorerOnGeneratedData.
Import Pandas Numpy ChurnData NumpyContracts DataExplorer.

Context {G : Type} `{RandomState G}.

(** X18.  On the frame [generate_data] returns, the default filters of
    the explorer hide nothing: under the contract of the integer draw
    every generated tenure lies within the default slider range. *)
Theorem explorer_defaults_show_generated_data (num_samples : nat) (g : G) :
  interval_sampler ->
  exists df,
    fst (generate_data num_samples g) = Some df /\
    rectangular df /\
    filtered_data df default_tenure_range (default_contract_filter df) = df.
Proof.
  intros Hi.
  destruct (generate_data_lengths num_samples g)
    as (df & E & L1 & L2 & L3 & L4 & L5 & L6 & L7).
  destruct (generate_data_columns num_samples g)
    as (df' & E' & Ht & _).
  assert (df' = df) by congruence. subst df'.
  destruct (draw_features_ranges num_samples (seed 42)) as (_ & R2 & _).
  destruct (R2 Hi) as (Rt & _).
  assert (Hrect : rectangular df).
  { unfold rectangular. rewrite L1, L2, L3, L4, L5, L6, L7. tauto. }
  exists df. split; [exact E|]. split; [exact Hrect|].
  apply (default_filters_keep df Hrect).
  rewrite Ht. eapply Forall_impl; [|exact Rt]. simpl. intros; lia.
Qed.

End ExplorerOnGeneratedData.

Section ExplorerOnGeneratedDataExample.
Import Pandas Numpy ChurnData NumpyContracts DataExplorer.

Lemma explorer_defaults_lcg :
  @interval_sampler Z lcg /\
  exists df,
    fst (@generate_data Z lcg 3 0) = Some df /\
    rectangular df /\
    filtered_data df default_tenure_range (default_contract_filter df) = df.
Proof.
  split; [exact lcg_interval|].
  exact (@explorer_defaults_show_generated_data Z lcg 3%nat 0 lcg_interval).
Defined.

End ExplorerOnGeneratedDataExample.

(** ** The fitted pipeline on unseen categories *)

Section ForestFitFacts.
Import Pandas Numpy Sklearn ChurnModel NumpyContracts ForestFit.
Local Open Scope Q_scope.

(** A leaf made from at least one sample with labels 0 and 1 holds two
    weights, none negative, not both zero. *)
Lemma class_weights_fitted (samples : list sample) :
  samples <> [] ->
  (forall s, In s samples -> snd s = 0%Z \/ snd s = 1%Z) ->
  fitted_tree 2 (Leaf (class_weights [0%Z; 1%Z] samples)).
Proof.
  intros Hne Hlab. unfold class_weights. cbn [map fitted_tree].
  set (c0 := List.length (filter (fun s => Z.eqb (snd s) 0) samples)).
  set (c1 := List.length (filter (fun s => Z.eqb (snd s) 1) samples)).
  assert (Hc : (0 < Z.of_nat c0 + Z.of_nat c1)%Z).
  { unfold c0, c1. destruct samples as [|s rest]; [congruence|].
    destruct (Hlab s (or_introl eq_refl)) as [E|E]; cbn [filter];
      rewrite E, Z.eqb_refl; cbn [List.length]; lia. }
  assert (H0 : 0 <= inject_Z (Z.of_nat c0)).
  { change 0 with (inject_Z 0). rewrite <- Zle_Qle. lia. }
  assert (H1 : 0 <= inject_Z (Z.of_nat c1)).
  { change 0 with (inject_Z 0). rewrite <- Zle_Qle. lia. }
  split; [reflexivity|]. split; [repeat constructor; assumption|].
  cbn [vsum fold_right].
  rewrite Zlt_Qlt, inject_Z_plus in Hc. change (inject_Z 0) with 0 in Hc.
  lra.
Qed.

Lemma grow_fitted (splitter : list sample -> option (nat * Q)) (fuel : nat)
      (samples : list sample) :
  samples <> [] ->
  (forall s, In s samples -> snd s = 0%Z \/ snd s = 1%Z) ->
  fitted_tree 2 (grow splitter fuel [0%Z; 1%Z] samples).
Proof.
  revert samples; induction fuel as [|k IH]; intros samples Hne Hlab;
    cbn [grow]; [apply class_weights_fitted; assumption|].
  destruct (splitter samples) as [[feature threshold]|];
    [|apply class_weights_fitted; assumption].
  cbv zeta.
  destruct (filter (fun s => Qle_bool (nth feature (fst s) 0) threshold)
                   samples) as [|b bs] eqn:Eb;
    [apply class_weights_fitted; assumption|].
  destruct (filter (fun s => negb (Qle_bool (nth feature (fst s) 0) threshold))
                   samples) as [|a al] eqn:Ea;
    [apply class_weights_fitted; assumption|].
  cbn [fitted_tree]. split; apply IH; try discriminate.
  - intros s Hs. rewrite <- Eb in Hs. apply filter_In in Hs. apply Hlab, Hs.
  - intros s Hs. rewrite <- Ea in Hs. apply filter_In in Hs. apply Hlab, Hs.
Qed.

(** A bootstrap sample drawn with valid indices is not empty and holds
    training samples only. *)
Lemma take_samples_spec (samples : list sample) (indices : list Z) :
  indices <> [] ->
  Forall (fun i => (0 <= i /\ i < Z.of_nat (List.length samples))%Z) indices ->
  take_samples samples indices <> [] /\
  forall s, In s (take_samples samples indices) -> In s samples.
Proof.
  intros Hne Hall. split.
  - destruct indices as [|i rest]; [congruence|].
    inversion Hall as [|? ? Hi _]; subst.
    unfold take_samples. simpl.
    destruct (nth_error samples (Z.to_nat i)) as [s|] eqn:E; [discriminate|].
    apply nth_error_None in E. lia.
  - intros s Hs. unfold take_samples in Hs. apply in_flat_map in Hs.
    destruct Hs as (i & _ & Hs).
    destruct (nth_error samples (Z.to_nat i)) as [s'|] eqn:E; [|contradiction].
    destruct Hs as [<-|[]]. eapply nth_error_In, E.
Qed.

(** The distinct labels of a training set that shows both labels 0
    and 1 and no other. *)
Lemma classes_binary (y : list Z) :
  In 0%Z y -> In 1%Z y -> (forall v, In v y -> v = 0%Z \/ v = 1%Z) ->
  sort Z.leb (unique Z.eq_dec y) = [0%Z; 1%Z].
Proof.
  intros H0 H1 Hall. apply sorted_lt_unique.
  - apply sort_lt, unique_NoDup.
  - repeat constructor.
  - intros v. rewrite sort_In, unique_In. simpl. split.
    + intros Hv. destruct (Hall v Hv) as [->| ->]; tauto.
    + intros [<-|[<-|[]]]; assumption.
Qed.

Lemma transform_all_spec (X_train rows : list Input) :
  exists Xt,
    transform_all (fit_preprocessor X_train) rows = Returned Xt /\
    List.length Xt = List.length rows /\
    Forall (fun x => List.length x = encoded_width (fit_preprocessor X_train))
           Xt.
Proof.
  induction rows as [|r rest (Xt & E & L & F)]; simpl.
  - exists []. repeat split. constructor.
  - destruct (fitted_transform X_train r) as (b1 & b2 & b3 & Et & Lx & _).
    rewrite Et, E. cbn [and_then].
    eexists. split; [reflexivity|]. split; [simpl; congruence|].
    constructor; assumption.
Qed.

Context {G : Type} `{RandomState G}.
Variable splitter : Z -> list sample -> option (nat * Q).

(** Fitting succeeds on a training set with as many labels as rows in
    which both labels occur, and leaves a pipeline that satisfies
    [fitted]. *)
Lemma Pipeline_fit_fitted (X_train : list Input) (y_train : list Z) :
  interval_sampler ->
  List.length X_train = List.length y_train ->
  In 0%Z y_train -> In 1%Z y_train ->
  (forall v, In v y_train -> v = 0%Z \/ v = 1%Z) ->
  exists model,
    Pipeline_fit splitter X_train y_train = Returned model /\
    fitted X_train model.
Proof.
  intros Hi Hlen H0 H1 Hall.
  assert (Hpos : (0 < List.length X_train)%nat).
  { rewrite Hlen. destruct y_train; [contradiction | simpl; lia]. }
  unfold Pipeline_fit.
  rewrite Hlen, Nat.eqb_refl.
  assert (E0 : Nat.eqb (List.length y_train) 0 = false)
    by (apply Nat.eqb_neq; lia).
  rewrite E0. cbn [andb negb]. cbv zeta.
  destruct (transform_all_spec X_train X_train) as (Xt & Et & Lt & Ft).
  rewrite Et. cbn [and_then].
  eexists. split; [reflexivity|].
  unfold fitted, RandomForestClassifier_fit.
  cbn [preprocessor classifier classes_ n_features_in_ estimators_].
  rewrite (classes_binary y_train H0 H1 Hall).
  split; [reflexivity|]. split; [reflexivity|]. split; [|split].
  - destruct Xt as [|x Xt']; [simpl in Lt; lia|].
    inversion Ft; subst. assumption.
  - pose proof (draws_length n_estimators
                  (fun g => let (r, g') := random_interval (MAX_INT - 0 - 1) g in
                            ((0 + r)%Z, g')) (seed 42)) as Ls.
    fold (randint 0 MAX_INT n_estimators (seed 42)) in Ls.
    destruct (fst (randint 0 MAX_INT n_estimators (seed 42))) as [|s0 rest];
      [discriminate | discriminate].
  - apply Forall_forall. intros t Ht. apply in_map_iff in Ht.
    destruct Ht as (s & <- & _). cbv zeta.
    set (samples := combine Xt y_train).
    assert (Ln : List.length samples = List.length X_train).
    { unfold samples. rewrite length_combine, Lt, Hlen. apply Nat.min_id. }
    set (indices := fst (randint 0 (Z.of_nat (List.length samples))
                                 (List.length samples) (seed s))).
    assert (Hidx : Forall (fun i => (0 <= i /\
                                     i < Z.of_nat (List.length samples))%Z)
                          indices).
    { unfold indices. apply randint_range; [exact Hi | lia]. }
    assert (Lidx : List.length indices = List.length samples).
    { unfold indices, randint. apply draws_length. }
    destruct (take_samples_spec samples indices) as [Hne Hsub];
      [intros E; rewrite E in Lidx; simpl in Lidx; lia | exact Hidx |].
    unfold DecisionTreeClassifier_fit. apply grow_fitted; [exact Hne|].
    intros smp Hs. apply Hsub in Hs. unfold samples in Hs.
    destruct smp as [x v]. apply in_combine_r in Hs. simpl. auto.
Qed.

(** C8.  Take the pipeline as fitting leaves it on a training set with
    as many labels as rows that shows both labels.  For every input row
    in the schema, encoding and prediction do not raise: every
    categorical cell becomes one block of indicator columns, all zero
    when the training rows never show its value, and the pipeline
    returns one of the two class labels together with two
    probabilities, neither negative, whose sum is within one millionth
    of 1. *)
Theorem unseen_category_is_tolerated
        (X_train : list Input) (y_train : list Z) (row : Input) :
  interval_sampler ->
  List.length X_train = List.length y_train ->
  In 0%Z y_train -> In 1%Z y_train ->
  (forall v, In v y_train -> v = 0%Z \/ v = 1%Z) ->
  exists model b1 b2 b3 label p0 p1,
    Pipeline_fit splitter X_train y_train = Returned model /\
    ColumnTransformer_transform (preprocessor model) row =
      Returned (numeric_features row ++ b1 ++ b2 ++ b3) /\
    List.length b1 = nunique string_dec (map contract X_train) /\
    List.length b2 = nunique string_dec (map internet_service X_train) /\
    List.length b3 = nunique string_dec (map online_security X_train) /\
    (~ In (contract row) (map contract X_train) ->
     Forall (fun x => x = 0) b1) /\
    (~ In (internet_service row) (map internet_service X_train) ->
     Forall (fun x => x = 0) b2) /\
    (~ In (online_security row) (map online_security X_train) ->
     Forall (fun x => x = 0) b3) /\
    predict model row = Returned label /\
    (label = 0%Z \/ label = 1%Z) /\
    predict_proba model row = Returned [p0; p1] /\
    0 <= p0 /\ 0 <= p1 /\
    Qabs (p0 + p1 - 1) <= 1 # 1000000.
Proof.
  intros Hi Hlen H0 H1 Hall.
  destruct (Pipeline_fit_fitted X_train y_train Hi Hlen H0 H1 Hall)
    as (model & Efit & Hfit).
  destruct (fitted_predict_proba X_train model row Hfit)
    as (xt & p0 & p1 & Et & Ep & N0 & N1 & S).
  destruct Hfit as (Hpre & Hcl & _).
  destruct (fitted_transform X_train row)
    as (b1 & b2 & b3 & Et' & _ & L1 & L2 & L3 & Z1 & Z2 & Z3).
  rewrite <- Hpre in Et'.
  exists model, b1, b2, b3, (if Qlt_le_dec p0 p1 then 1%Z else 0%Z), p0, p1.
  split; [exact Efit|]. split; [exact Et'|].
  do 6 (split; [assumption|]).
  split.
  { unfold predict. rewrite Et. cbn [and_then].
    unfold forest_predict. rewrite Ep, Hcl. cbn [and_then argmax argmax_from].
    destruct (Qlt_le_dec p0 p1); reflexivity. }
  split; [destruct (Qlt_le_dec p0 p1); tauto|].
  split; [unfold predict_proba; rewrite Et; exact Ep|].
  split; [exact N0|]. split; [exact N1|].
  apply Qabs_Qle_condition. split; lra.
Qed.

End ForestFitFacts.

Section ForestFitExample.
Import Pandas Numpy Sklearn ChurnModel NumpyContracts ForestFit.
Local Open Scope Q_scope.

(** The property on the toy training set with one label per row, for
    an input whose contract and security plan are new. *)
Lemma unseen_category_toy :
  @interval_sampler Z lcg /\
  ~ In (contract toy_input) (map contract toy_train) /\
  exists model b1 b2 b3 label p0 p1,
    @Pipeline_fit Z lcg toy_splitter toy_train [0%Z; 1%Z] = Returned model /\
    ColumnTransformer_transform (preprocessor model) toy_input =
      Returned (numeric_features toy_input ++ b1 ++ b2 ++ b3) /\
    List.length b1 = nunique string_dec (map contract toy_train) /\
    List.length b2 = nunique string_dec (map internet_service toy_train) /\
    List.length b3 = nunique string_dec (map online_security toy_train) /\
    (~ In (contract toy_input) (map contract toy_train) ->
     Forall (fun x => x = 0) b1) /\
    (~ In (internet_service toy_input) (map internet_service toy_train) ->
     Forall (fun x => x = 0) b2) /\
    (~ In (online_security toy_input) (map online_security toy_train) ->
     Forall (fun x => x = 0) b3) /\
    predict model toy_input = Returned label /\
    (label = 0%Z \/ label = 1%Z) /\
    predict_proba model toy_input = Returned [p0; p1] /\
    0 <= p0 /\ 0 <= p1 /\
    Qabs (p0 + p1 - 1) <= 1 # 1000000.
Proof.
  split; [exact lcg_interval|]. split.
  - simpl. intros [E|[E|[]]]; discriminate.
  - apply (@unseen_category_is_tolerated Z lcg toy_splitter toy_train
             [0%Z; 1%Z] toy_input lcg_interval).
    + reflexivity.
    + simpl; tauto.
    + simpl; tauto.
    + simpl. intros v [<-|[<-|[]]]; tauto.
Defined.

End ForestFitExample.
